(** * The Kafka metadata source of gometa (datahub ingestion)

    A shallow embedding of
    [metadata-ingestion/src/gometa/ingestion/source/kafka.py]:
    the run report, the source object, the extraction of one topic and the
    generator [get_workunits], together with the collaborators the file
    calls (broker consumer, schema registry, AVRO field conversion, clock),
    which are kept abstract in a [Platform] record. *)

From Stdlib Require Import ZArith String Ascii List DecimalString.
From stdpp Require Import gmap strings list fin_maps.

Local Open Scope string_scope.
Local Open Scope list_scope.

(** ** Python values shared by the whole file *)

(** A raised object. [exc_is_Exception] tells whether its class derives from
    [Exception] (what [except Exception] catches) or only from
    [BaseException]; [exc_str] is what [str(e)] prints. *)
Record exn := mk_exn {
  exc_class : string;
  exc_str : string;
  exc_is_Exception : bool
}.

Inductive result (A : Type) : Type :=
| Ok (a : A)
| Raise (e : exn).
Arguments Ok {A} a.
Arguments Raise {A} e.

(** [str] of a Python [int]. *)
Definition str_int (z : Z) : string := NilZero.string_of_int (Z.to_int z).

(** ** Pattern filter *)

(** Regular expressions, as far as the configured patterns need them:
    [RAny] is [.], [RBol] is [^]. *)
Inductive regex :=
| REmpty
| REps
| RBol
| RAny
| RChr (c : ascii)
| RSeq (r1 r2 : regex)
| RAlt (r1 r2 : regex)
| RStar (r : regex).

Definition newline : ascii := ascii_of_nat 10.

Fixpoint nullable (at_start : bool) (r : regex) : bool :=
  match r with
  | REmpty => false
  | REps => true
  | RBol => at_start
  | RAny => false
  | RChr _ => false
  | RSeq r1 r2 => nullable at_start r1 && nullable at_start r2
  | RAlt r1 r2 => nullable at_start r1 || nullable at_start r2
  | RStar _ => true
  end.

Fixpoint deriv (at_start : bool) (c : ascii) (r : regex) : regex :=
  match r with
  | REmpty => REmpty
  | REps => REmpty
  | RBol => REmpty
  | RAny => if Ascii.eqb c newline then REmpty else REps
  | RChr d => if Ascii.eqb c d then REps else REmpty
  | RSeq r1 r2 =>
      if nullable at_start r1
      then RAlt (RSeq (deriv at_start c r1) r2) (deriv at_start c r2)
      else RSeq (deriv at_start c r1) r2
  | RAlt r1 r2 => RAlt (deriv at_start c r1) (deriv at_start c r2)
  | RStar r1 => RSeq (deriv at_start c r1) (RStar r1)
  end.

Fixpoint matches_from (at_start : bool) (r : regex) (s : string) : bool :=
  match s with
  | EmptyString => nullable at_start r
  | String c s' => matches_from false (deriv at_start c r) s'
  end.

(** Full-string match of [s] against [r]. *)
Definition fullmatch (r : regex) (s : string) : bool := matches_from true r s.

Record AllowDenyPattern := mk_pattern {
  allow : list regex;
  deny : list regex
}.

(** Modelled from the spec: [gometa.configuration.common.AllowDenyPattern]
    is not among the sources. "Reject if resource matches any deny pattern;
    else accept if resource matches any allow pattern; else reject.
    Matching is full-string regex match." *)
Definition allowed (p : AllowDenyPattern) (s : string) : bool :=
  if existsb (fun r => fullmatch r s) (deny p) then false
  else existsb (fun r => fullmatch r s) (allow p).

(** The pattern [.*]. *)
Definition re_any_star : regex := RStar RAny.
(** The pattern [^_.*]. *)
Definition re_underscore_prefix : regex :=
  RSeq RBol (RSeq (RChr "_"%char) (RStar RAny)).

(** ** Configuration *)

(** Modelled from the spec: [gometa.configuration.kafka] is not among the
    sources; "connection parameters for the platform client" are the three
    fields [__init__] reads. *)
Record KafkaConsumerConnectionConfig := mk_connection {
  bootstrap : string;
  schema_registry_url : string;
  consumer_config : gmap string string
}.

Record KafkaSourceConfig := mk_config {
  connection : KafkaConsumerConnectionConfig;
  topic_patterns : AllowDenyPattern
}.

Definition default_topic_patterns : AllowDenyPattern :=
  {| allow := [re_any_star]; deny := [re_underscore_prefix] |}.

(** ** Catalog records *)

(** Modelled from the spec: the generated catalog classes
    ([pegasus2avro]) are not among the sources; a field carries the
    "NormalizedField" components path, type and native type name. *)
Record SchemaField := mk_field {
  fieldPath : string;
  fieldType : string;
  nativeDataType : string
}.

Record AuditStamp := mk_stamp { stamp_time : Z; stamp_actor : string }.

Record KafkaSchema := mk_kafka_schema { documentSchema : string }.

Record SchemaMetadata := mk_schema_metadata {
  schemaName : string;
  version : Z;
  hash : string;
  platform : string;
  platformSchema : KafkaSchema;
  fields : list SchemaField;
  created : AuditStamp;
  lastModified : AuditStamp
}.

Inductive aspect :=
| AStatus (removed : bool)
| ASchemaMetadata (sm : SchemaMetadata).

(** A [DatasetSnapshot] object; [aspects] is the list the code appends to. *)
Record DatasetSnapshot := mk_snapshot {
  urn : string;
  aspects : list aspect
}.

(** Snapshot objects live in a store and are referred to by address, since
    [_extract_record] keeps appending to the snapshot after it has been
    attached to the record. *)
Definition loc := nat.

Record MetadataChangeEvent := mk_mce { proposedSnapshot : option loc }.

Record MetadataWorkUnit := mk_wu { id : string; mce : MetadataChangeEvent }.

(** ** What the schema registry answers *)

Record Schema := mk_schema {
  schema_str : string;
  schema_type : string;
  schema_hash : Z   (* the attribute [_hash] *)
}.

Record RegisteredSchema := mk_registered { schema : Schema }.

(** ** Collaborators

    The broker consumer, the schema registry client and the AVRO field
    conversion of [schema_util] are not part of the file. A [Platform] fixes
    what they answer: the consumer is a handle with a state of its own that
    [close] may change. The wall clock is kept apart from the platform. *)
Record Platform := mk_platform {
  handle : Type;
  (* confluent_kafka.Consumer(conf) *)
  new_consumer : gmap string string -> result handle;
  (* SchemaRegistryClient({"url": url}) *)
  new_registry : string -> result unit;
  (* consumer.list_topics().topics, in iteration order *)
  list_topics : handle -> result (list string);
  (* consumer.close(): what it answers, and the handle afterwards *)
  consumer_close : handle -> result unit * handle;
  (* schema_registry_client.get_latest_version(subject) *)
  get_latest_version : string -> result RegisteredSchema;
  (* schema_util.avro_schema_to_mce_fields(schema_str) *)
  avro_schema_to_mce_fields : string -> result (list SchemaField)
}.

(** ** The run report *)

(** The two dicts are finite maps from topic to its ordered list of reasons;
    the order in which keys were first inserted is not recorded. *)
Record KafkaSourceReport := mk_report {
  workunits_produced : nat;
  topics_scanned : nat;
  warnings : gmap string (list string);
  failures : gmap string (list string);
  filtered : list string
}.

Definition new_report : KafkaSourceReport :=
  {| workunits_produced := 0; topics_scanned := 0;
     warnings := ∅; failures := ∅; filtered := [] |}.

Definition report_topic_scanned (topic : string) (r : KafkaSourceReport)
  : KafkaSourceReport :=
  {| workunits_produced := workunits_produced r;
     topics_scanned := topics_scanned r + 1;
     warnings := warnings r; failures := failures r;
     filtered := filtered r |}.

(** [d[topic] = []] when the key is missing, then [d[topic].append(reason)]. *)
Definition append_reason (topic reason : string)
    (d : gmap string (list string)) : gmap string (list string) :=
  let d1 := match d !! topic with
            | None => <[topic := []]> d
            | Some _ => d
            end in
  alter (fun l => l ++ [reason]) topic d1.

Definition report_warning (topic reason : string) (r : KafkaSourceReport)
  : KafkaSourceReport :=
  {| workunits_produced := workunits_produced r;
     topics_scanned := topics_scanned r;
     warnings := append_reason topic reason (warnings r);
     failures := failures r;
     filtered := filtered r |}.

Definition report_failure (topic reason : string) (r : KafkaSourceReport)
  : KafkaSourceReport :=
  {| workunits_produced := workunits_produced r;
     topics_scanned := topics_scanned r;
     warnings := warnings r;
     failures := append_reason topic reason (failures r);
     filtered := filtered r |}.

Definition report_dropped (topic : string) (r : KafkaSourceReport)
  : KafkaSourceReport :=
  {| workunits_produced := workunits_produced r;
     topics_scanned := topics_scanned r;
     warnings := warnings r; failures := failures r;
     filtered := filtered r ++ [topic] |}.

(** Modelled from the spec: [SourceReport.report_workunit] belongs to
    [gometa.ingestion.api.source], which is not among the sources; the
    report's "workUnitsProduced: count" is advanced by one. *)
Definition report_workunit (wu : MetadataWorkUnit) (r : KafkaSourceReport)
  : KafkaSourceReport :=
  {| workunits_produced := workunits_produced r + 1;
     topics_scanned := topics_scanned r;
     warnings := warnings r; failures := failures r;
     filtered := filtered r |}.

(** ** The source object and the state of a computation *)

Section Source.

Context (P : Platform).
(** [int(time.time())] at the n-th reading of the clock. *)
Context (time_time : nat -> Z).

(** The attributes of a [KafkaSource]. The registry client has no state of
    its own here: it is [get_latest_version P]. *)
Record KafkaSource := mk_source {
  source_config : KafkaSourceConfig;
  consumer : option (handle P);   (* [None] is Python's [None] *)
  report : KafkaSourceReport
}.

(** What a computation reads and writes: the source object, the store of
    snapshot objects and the number of clock readings so far. *)
Record state := mk_state {
  self : KafkaSource;
  heap : list DatasetSnapshot;
  ticks : nat
}.

Definition with_report (f : KafkaSourceReport -> KafkaSourceReport)
    (σ : state) : state :=
  {| self := {| source_config := source_config (self σ);
                consumer := consumer (self σ);
                report := f (report (self σ)) |};
     heap := heap σ; ticks := ticks σ |}.

(** Computations that may raise; what was written before the raise stays. *)
Definition M (A : Type) : Type := state -> result A * state.

Definition ret {A} (a : A) : M A := fun σ => (Ok a, σ).
Definition bind {A B} (m : M A) (k : A -> M B) : M B :=
  fun σ => match m σ with
           | (Ok a, σ') => k a σ'
           | (Raise e, σ') => (Raise e, σ')
           end.
Definition lift {A} (r : result A) : M A := fun σ => (r, σ).
Definition modify_report (f : KafkaSourceReport -> KafkaSourceReport)
  : M unit := fun σ => (Ok tt, with_report f σ).

(** [try: m except Exception as e: h e] *)
Definition try_except {A} (m : M A) (h : exn -> M A) : M A :=
  fun σ => match m σ with
           | (Ok a, σ') => (Ok a, σ')
           | (Raise e, σ') =>
               if exc_is_Exception e then h e σ' else (Raise e, σ')
           end.

Notation "x <- m ;; k" := (bind m (fun x => k))
  (at level 100, m at next level, right associativity).
Notation "m ;;; k" := (bind m (fun _ => k))
  (at level 100, right associativity).

(** [int(time.time())] *)
Definition read_clock : M Z :=
  fun σ => (Ok (time_time (ticks σ)),
            {| self := self σ; heap := heap σ; ticks := S (ticks σ) |}).

(** Modelled from the spec: the class [DatasetSnapshot] is not among the
    sources; a record's aspects are "status aspect + optional SchemaSnapshot
    aspect", so [DatasetSnapshot(urn=...)] is a new object with no aspects
    yet. *)
Definition new_snapshot (u : string) : M loc :=
  fun σ => (Ok (length (heap σ)),
            {| self := self σ;
               heap := heap σ ++ [{| urn := u; aspects := [] |}];
               ticks := ticks σ |}).

(** [snapshot.aspects.append(a)] on the object at [l]. *)
Definition append_aspect (l : loc) (a : aspect) : M unit :=
  fun σ => (Ok tt,
            {| self := self σ;
               heap := alter (fun d => {| urn := urn d;
                                          aspects := aspects d ++ [a] |})
                             l (heap σ);
               ticks := ticks σ |}).

(** ** [KafkaSource._extract_record] *)

Definition dataset_urn (platform dataset_name env : string) : string :=
  "urn:li:dataset:(urn:li:dataPlatform:" +:+ platform +:+ "," +:+
  dataset_name +:+ "," +:+ env +:+ ")".

Definition _extract_record (topic : string) : M MetadataChangeEvent :=
  let platform := "kafka" in
  let dataset_name := topic in
  let env := "PROD" in
  let actor := "urn:li:corpuser:etl" in
  now <- read_clock ;;
  let sys_time := (now * 1000)%Z in
  let metadata_record := {| proposedSnapshot := None |} in
  dataset_snapshot <- new_snapshot (dataset_urn platform dataset_name env) ;;
  append_aspect dataset_snapshot (AStatus false) ;;;
  let metadata_record := {| proposedSnapshot := Some dataset_snapshot |} in
  (* Fetch schema from the registry: [Some schema] stands for
     [has_schema = True] with [schema] bound, [None] for [has_schema = False]. *)
  fetched <-
    try_except
      (registered_schema <- lift (get_latest_version P (topic +:+ "-value")) ;;
       ret (Some (schema registered_schema)))
      (fun e =>
         modify_report
           (report_warning topic ("failed to get schema: " +:+ exc_str e)) ;;;
         ret None) ;;
  (* Parse the schema *)
  fields <-
    match fetched with
    | Some schema =>
        if String.eqb (schema_type schema) "AVRO"
        then lift (avro_schema_to_mce_fields P (schema_str schema))
        else
          modify_report
            (report_warning topic
               ("unable to parse kafka schema type " +:+ schema_type schema)) ;;;
          ret []
    | None => ret []
    end ;;
  match fetched with
  | Some schema =>
      let schema_metadata :=
        {| schemaName := topic;
           version := 0;
           hash := str_int (schema_hash schema);
           platform := "urn:li:dataPlatform:" +:+ platform;
           platformSchema := {| documentSchema := schema_str schema |};
           fields := fields;
           created := {| stamp_time := sys_time; stamp_actor := actor |};
           lastModified := {| stamp_time := sys_time; stamp_actor := actor |} |} in
      append_aspect dataset_snapshot (ASchemaMetadata schema_metadata)
  | None => ret tt
  end ;;;
  ret metadata_record.

(** ** [KafkaSource.__init__], [get_report], [close] *)

Definition __init__ (config : KafkaSourceConfig) : result KafkaSource :=
  let conf :=
    consumer_config (connection config) ∪
    <["bootstrap.servers" := bootstrap (connection config)]>
      {["group.id" := "test"]} in
  match new_consumer P conf with
  | Raise e => Raise e
  | Ok c =>
      match new_registry P (schema_registry_url (connection config)) with
      | Raise e => Raise e
      | Ok _ =>
          Ok {| source_config := config; consumer := Some c;
                report := new_report |}
      end
  end.

(** The state right after a successful construction. *)
Definition opened (s : KafkaSource) : state :=
  {| self := s; heap := []; ticks := 0 |}.

Definition get_report (σ : state) : KafkaSourceReport := report (self σ).

(** [if self.consumer: self.consumer.close()]; a consumer object is always
    truthy, [None] is not. *)
Definition close : M unit :=
  fun σ =>
    match consumer (self σ) with
    | Some c =>
        let '(r, c') := consumer_close P c in
        (r, {| self := {| source_config := source_config (self σ);
                          consumer := Some c';
                          report := report (self σ) |};
               heap := heap σ; ticks := ticks σ |})
    | None => (Ok tt, σ)
    end.

(** ** [KafkaSource.get_workunits] *)

(** One turn of the [for] loop. *)
Inductive iteration :=
| Emit (wu : MetadataWorkUnit)
| Skip
| Abort (e : exn).

Definition loop_body (t : string) (σ : state) : iteration * state :=
  let σ1 := with_report (report_topic_scanned t) σ in
  if allowed (topic_patterns (source_config (self σ1))) t then
    match _extract_record t σ1 with
    | (Ok mce, σ2) =>
        let wu := {| id := "kafka-" +:+ t; mce := mce |} in
        (Emit wu, with_report (report_workunit wu) σ2)
    | (Raise e, σ2) => (Abort e, σ2)
    end
  else (Skip, with_report (report_dropped t) σ1).

(** The generator object: not started, suspended at a [yield] with the
    topics still to visit, or finished. *)
Inductive generator :=
| Created
| Suspended (rest : list string)
| Exhausted.

Inductive pulled :=
| Yielded (wu : MetadataWorkUnit)
| StopIteration
| Propagated (e : exn).

(** Run the loop up to its next [yield]. *)
Fixpoint for_loop (topics : list string) (σ : state)
  : pulled * generator * state :=
  match topics with
  | [] => (StopIteration, Exhausted, σ)
  | t :: rest =>
      match loop_body t σ with
      | (Emit wu, σ') => (Yielded wu, Suspended rest, σ')
      | (Skip, σ') => for_loop rest σ'
      | (Abort e, σ') => (Propagated e, Exhausted, σ')
      end
  end.

Definition attribute_error_list_topics : exn :=
  {| exc_class := "AttributeError";
     exc_str := "'NoneType' object has no attribute 'list_topics'";
     exc_is_Exception := true |}.

(** [self.consumer.list_topics().topics] *)
Definition fetch_topics (σ : state) : result (list string) :=
  match consumer (self σ) with
  | None => Raise attribute_error_list_topics
  | Some c => list_topics P c
  end.

(** Calling [get_workunits] only makes the generator object. *)
Definition get_workunits (s : KafkaSource) : generator := Created.

(** [next(g)] *)
Definition next (g : generator) (σ : state) : pulled * generator * state :=
  match g with
  | Created =>
      match fetch_topics σ with
      | Ok topics => for_loop topics σ
      | Raise e => (Propagated e, Exhausted, σ)
      end
  | Suspended rest => for_loop rest σ
  | Exhausted => (StopIteration, Exhausted, σ)
  end.

(** What a consumer of the whole sequence sees: the units in order, the
    exception that ended the iteration if one did, and the state left. *)
Record outcome := mk_outcome {
  emitted : list MetadataWorkUnit;
  error : option exn;
  final : state
}.

Definition emit_first (wu : MetadataWorkUnit) (o : outcome) : outcome :=
  {| emitted := wu :: emitted o; error := error o; final := final o |}.

(** [list(g)], by repeated [next] with a bound on the number of pulls. *)
Fixpoint drain (fuel : nat) (g : generator) (σ : state) : option outcome :=
  match fuel with
  | 0 => None
  | S n =>
      match next g σ with
      | (Yielded wu, g', σ') => emit_first wu <$> drain n g' σ'
      | (StopIteration, _, σ') =>
          Some {| emitted := []; error := None; final := σ' |}
      | (Propagated e, _, σ') =>
          Some {| emitted := []; error := Some e; final := σ' |}
      end
  end.

(** The whole loop over [topics] at once. *)
Fixpoint run_topics (topics : list string) (σ : state) : outcome :=
  match topics with
  | [] => {| emitted := []; error := None; final := σ |}
  | t :: rest =>
      match loop_body t σ with
      | (Emit wu, σ') => emit_first wu (run_topics rest σ')
      | (Skip, σ') => run_topics rest σ'
      | (Abort e, σ') => {| emitted := []; error := Some e; final := σ' |}
      end
  end.

(** [list(self.get_workunits())] *)
Definition run (σ : state) : outcome :=
  match fetch_topics σ with
  | Ok topics => run_topics topics σ
  | Raise e => {| emitted := []; error := Some e; final := σ |}
  end.

(** The snapshot a work unit's record points to, as the store has it. *)
Definition snapshot_of (σ : state) (wu : MetadataWorkUnit)
  : option DatasetSnapshot :=
  l ← proposedSnapshot (mce wu); heap σ !! l.

End Source.

Arguments source_config {P}.
Arguments consumer {P}.
Arguments report {P}.
Arguments self {P}.
Arguments heap {P}.
Arguments ticks {P}.
Arguments emitted {P}.
Arguments error {P}.
Arguments final {P}.
Arguments with_report {P}.
Arguments get_report {P}.
Arguments snapshot_of {P}.
Arguments opened {P}.

(** The schema aspect [_extract_record] builds from a fetched schema. *)
Definition schema_aspect (t : string) (s : Schema) (fs : list SchemaField)
    (now : Z) : aspect :=
  ASchemaMetadata
    {| schemaName := t; version := 0; hash := str_int (schema_hash s);
       platform := "urn:li:dataPlatform:kafka";
       platformSchema := {| documentSchema := schema_str s |};
       fields := fs;
       created := {| stamp_time := now * 1000;
                     stamp_actor := "urn:li:corpuser:etl" |};
       lastModified := {| stamp_time := now * 1000;
                          stamp_actor := "urn:li:corpuser:etl" |} |}.

(** The state after an extraction that attached the aspects [extra] after
    the status aspect and changed the report by [f]. *)
Definition extracted {P} (t : string) (extra : list aspect)
    (f : KafkaSourceReport -> KafkaSourceReport) (σ : state P) : state P :=
  {| self := {| source_config := source_config (self σ);
                consumer := consumer (self σ);
                report := f (report (self σ)) |};
     heap := heap σ ++ [{| urn := dataset_urn "kafka" t "PROD";
                            aspects := AStatus false :: extra |}];
     ticks := S (ticks σ) |}.

(** What an extraction may not touch in the report: everything but the
    warnings. *)
Definition warnings_only (r r' : KafkaSourceReport) : Prop :=
  workunits_produced r' = workunits_produced r /\
  topics_scanned r' = topics_scanned r /\
  failures r' = failures r /\
  filtered r' = filtered r.

(** Where an exception leaving [_extract_record] for [t] can come from: a
    fetch error that is no [Exception], or the field conversion. *)
Definition raised_by_collaborator (P : Platform) (t : string) (e : exn)
  : Prop :=
  (get_latest_version P (t +:+ "-value") = Raise e /\
   exc_is_Exception e = false) \/
  (exists rs, get_latest_version P (t +:+ "-value") = Ok rs /\
              avro_schema_to_mce_fields P (schema_str (schema rs)) = Raise e).

(** The pattern a state's source is configured with. *)
Definition pattern_of {P} (σ : state P) : AllowDenyPattern :=
  topic_patterns (source_config (self σ)).

(** ** Concrete platforms for the scenarios *)

Definition runtime_error (msg : string) : exn :=
  {| exc_class := "RuntimeError"; exc_str := msg; exc_is_Exception := true |}.

(** A broker with the given topics whose consumer handle is a closed flag:
    once closed, the handle answers every call, [close] included, with a
    [RuntimeError]. *)
Definition broker (topics : list string)
    (registry : string -> result RegisteredSchema)
    (parser : string -> result (list SchemaField)) : Platform :=
  {| handle := bool;
     new_consumer := fun _ => Ok false;
     new_registry := fun _ => Ok tt;
     list_topics := fun closed =>
       if closed then Raise (runtime_error "Consumer closed") else Ok topics;
     consumer_close := fun closed =>
       if closed then (Raise (runtime_error "Consumer already closed"), true)
       else (Ok tt, true);
     get_latest_version := registry;
     avro_schema_to_mce_fields := parser |}.

Definition subject_not_found : exn :=
  {| exc_class := "SchemaRegistryError";
     exc_str := "Subject not found. (HTTP status code 404, SR code 40401)";
     exc_is_Exception := true |}.

(** A registry with no subjects. *)
Definition no_schema : string -> result RegisteredSchema :=
  fun _ => Raise subject_not_found.

(** A registry with one subject. *)
Definition one_schema (subject : string) (s : Schema)
  : string -> result RegisteredSchema :=
  fun q => if String.eqb q subject then Ok {| schema := s |}
           else Raise subject_not_found.

Definition schema_parse_exception : exn :=
  {| exc_class := "SchemaParseException";
     exc_str := "Error parsing JSON: {";
     exc_is_Exception := true |}.

(** A field conversion that rejects the payload ["{"] and finds one field
    in everything else. *)
Definition sample_parser (payload : string) : result (list SchemaField) :=
  if String.eqb payload "{" then Raise schema_parse_exception
  else Ok [{| fieldPath := "id"; fieldType := "long";
              nativeDataType := "long" |}].

Definition default_config : KafkaSourceConfig :=
  {| connection := {| bootstrap := "localhost:9092";
                      schema_registry_url := "http://localhost:8081";
                      consumer_config := ∅ |};
     topic_patterns := default_topic_patterns |}.

Definition epoch (n : nat) : Z := (1600000000 + Z.of_nat n)%Z.

(** Scenario A: three topics, no schemas registered. *)
Definition scenario_A : Platform :=
  broker ["orders"; "_internal"; "customers"] no_schema sample_parser.

(** Scenario B: one topic whose schema fetch throws. *)
Definition scenario_B : Platform := broker ["events"] no_schema sample_parser.

(** One topic whose registered schema is not AVRO. *)
Definition protobuf_schema : Schema :=
  {| schema_str := "message Event { int64 id = 1; }";
     schema_type := "PROTOBUF";
     schema_hash := 7 |}.

Definition scenario_protobuf : Platform :=
  broker ["events"] (one_schema "events-value" protobuf_schema) sample_parser.

(** Two topics, the first with an AVRO schema whose payload the field
    conversion rejects. *)
Definition malformed_avro : Schema :=
  {| schema_str := "{"; schema_type := "AVRO"; schema_hash := (-3) |}.

Definition scenario_malformed : Platform :=
  broker ["bad"; "good"] (one_schema "bad-value" malformed_avro) sample_parser.

(** Like [broker], with a consumer whose [close] accepts a closed handle. *)
Definition lenient_broker (topics : list string)
    (registry : string -> result RegisteredSchema)
    (parser : string -> result (list SchemaField)) : Platform :=
  {| handle := bool;
     new_consumer := fun _ => Ok false;
     new_registry := fun _ => Ok tt;
     list_topics := fun closed =>
       if closed then Raise (runtime_error "Consumer closed") else Ok topics;
     consumer_close := fun _ => (Ok tt, true);
     get_latest_version := registry;
     avro_schema_to_mce_fields := parser |}.

Definition scenario_lenient : Platform :=
  lenient_broker ["orders"] no_schema sample_parser.

(** A source as [__init__] leaves it on a [broker] platform. *)
Definition fresh_source (P : Platform) (c : handle P) : KafkaSource P :=
  {| source_config := default_config; consumer := Some c;
     report := new_report |}.

(** A source object whose consumer attribute holds [None]. *)
Definition handleless_source (P : Platform) : KafkaSource P :=
  {| source_config := default_config; consumer := None;
     report := new_report |}.

(** ** Summaries of single decisions of the code *)

(** The warning [_extract_record] records for a topic, if any: the handler
    of the fetch, or the [elif has_schema] branch of the parse step. *)
Definition expected_warning (P : Platform) (t : string) : option string :=
  match get_latest_version P (t +:+ "-value") with
  | Raise e =>
      if exc_is_Exception e
      then Some ("failed to get schema: " +:+ exc_str e)
      else None
  | Ok rs =>
      if String.eqb (schema_type (schema rs)) "AVRO" then None
      else Some ("unable to parse kafka schema type "
                 +:+ schema_type (schema rs))
  end.

(** The exception that leaves [_extract_record] for a topic, if any: a
    fetch error the handler does not catch, or an error of the field
    conversion, which is called for AVRO schemas only. *)
Definition extraction_error (P : Platform) (t : string) : option exn :=
  match get_latest_version P (t +:+ "-value") with
  | Raise e => if exc_is_Exception e then None else Some e
  | Ok rs =>
      if String.eqb (schema_type (schema rs)) "AVRO"
      then match avro_schema_to_mce_fields P (schema_str (schema rs)) with
           | Ok _ => None
           | Raise e => Some e
           end
      else None
  end.

(** The dict [__init__] passes to [confluent_kafka.Consumer]. *)
Definition consumer_conf (config : KafkaSourceConfig) : gmap string string :=
  consumer_config (connection config) ∪
  <["bootstrap.servers" := bootstrap (connection config)]>
    {["group.id" := "test"]}.

(** The snapshot object a work unit's record refers to. *)
Definition location_of (wu : MetadataWorkUnit) : option loc :=
  proposedSnapshot (mce wu).

(** A connection whose [consumer_config] overrides the group id. *)
Definition override_config : KafkaSourceConfig :=
  {| connection := {| bootstrap := "broker:9092";
                      schema_registry_url := "http://registry:8081";
                      consumer_config := {["group.id" := "ingest"]} |};
     topic_patterns := default_topic_patterns |}.

(** One topic with an AVRO schema the field conversion accepts. *)
Definition avro_schema : Schema :=
  {| schema_str := "record Order"; schema_type := "AVRO";
     schema_hash := 42 |}.

Definition scenario_avro : Platform :=
  broker ["orders"] (one_schema "orders-value" avro_schema) sample_parser.

Definition keyboard_interrupt : exn :=
  {| exc_class := "KeyboardInterrupt"; exc_str := "";
     exc_is_Exception := false |}.

(** One topic whose fetch is interrupted. *)
Definition scenario_interrupted : Platform :=
  broker ["orders"] (fun _ => Raise keyboard_interrupt) sample_parser.

(** Only reserved topics. *)
Definition scenario_reserved : Platform :=
  broker ["_schemas"; "__consumer_offsets"]
    (fun _ => Raise keyboard_interrupt) sample_parser.

(** * Properties *)

(** ** The report's reason lists *)

Lemma alter_last {A} (f : A -> A) (l : list A) (x : A) :
  alter f (length l) (l ++ [x]) = l ++ [f x].
Proof.
  induction l as [|y l IH]; simpl; [reflexivity|].
  f_equal. exact IH.
Qed.

Lemma append_reason_lookup topic reason (d : gmap string (list string)) :
  append_reason topic reason d !! topic
  = Some (default [] (d !! topic) ++ [reason]).
Proof.
  unfold append_reason. rewrite lookup_alter_eq.
  destruct (d !! topic) as [l|] eqn:E.
  - rewrite E. reflexivity.
  - rewrite lookup_insert_eq. reflexivity.
Qed.

Lemma append_reason_lookup_ne topic reason other
    (d : gmap string (list string)) :
  topic ≠ other -> append_reason topic reason d !! other = d !! other.
Proof.
  intros Hne. unfold append_reason. rewrite lookup_alter_ne by exact Hne.
  destruct (d !! topic); [reflexivity|].
  apply lookup_insert_ne. exact Hne.
Qed.

(** ** One extraction, path by path *)

Section Extraction.

Context (P : Platform) (clock : nat -> Z).

Ltac run_extract :=
  unfold _extract_record, bind, try_except, lift, ret, read_clock,
    new_snapshot, append_aspect, modify_report; simpl.

Lemma extract_fetch_caught t σ e :
  get_latest_version P (t +:+ "-value") = Raise e ->
  exc_is_Exception e = true ->
  _extract_record P clock t σ
  = (Ok {| proposedSnapshot := Some (length (heap σ)) |},
     extracted t []
       (report_warning t ("failed to get schema: " +:+ exc_str e)) σ).
Proof.
  intros Hf He. run_extract.
  rewrite Hf, He. simpl. rewrite alter_last. reflexivity.
Qed.

Lemma extract_fetch_uncaught t σ e :
  get_latest_version P (t +:+ "-value") = Raise e ->
  exc_is_Exception e = false ->
  _extract_record P clock t σ = (Raise e, extracted t [] (fun r => r) σ).
Proof.
  intros Hf He. run_extract.
  rewrite Hf, He. simpl. rewrite alter_last.
  destruct σ as [[? ? ?] ? ?]; reflexivity.
Qed.

Lemma extract_unsupported t σ rs :
  get_latest_version P (t +:+ "-value") = Ok rs ->
  String.eqb (schema_type (schema rs)) "AVRO" = false ->
  _extract_record P clock t σ
  = (Ok {| proposedSnapshot := Some (length (heap σ)) |},
     extracted t [schema_aspect t (schema rs) [] (clock (ticks σ))]
       (report_warning t
          ("unable to parse kafka schema type " +:+ schema_type (schema rs)))
       σ).
Proof.
  intros Hf Hty. run_extract.
  rewrite Hf. simpl. rewrite Hty. simpl.
  rewrite alter_last. simpl. rewrite alter_last. reflexivity.
Qed.

Lemma extract_avro t σ rs fs :
  get_latest_version P (t +:+ "-value") = Ok rs ->
  String.eqb (schema_type (schema rs)) "AVRO" = true ->
  avro_schema_to_mce_fields P (schema_str (schema rs)) = Ok fs ->
  _extract_record P clock t σ
  = (Ok {| proposedSnapshot := Some (length (heap σ)) |},
     extracted t [schema_aspect t (schema rs) fs (clock (ticks σ))]
       (fun r => r) σ).
Proof.
  intros Hf Hty Hp. run_extract.
  rewrite Hf. simpl. rewrite Hty. simpl. rewrite Hp. simpl.
  rewrite alter_last. simpl. rewrite alter_last.
  destruct σ as [[? ? ?] ? ?]; reflexivity.
Qed.

Lemma extract_avro_raises t σ rs e :
  get_latest_version P (t +:+ "-value") = Ok rs ->
  String.eqb (schema_type (schema rs)) "AVRO" = true ->
  avro_schema_to_mce_fields P (schema_str (schema rs)) = Raise e ->
  _extract_record P clock t σ = (Raise e, extracted t [] (fun r => r) σ).
Proof.
  intros Hf Hty Hp. run_extract.
  rewrite Hf. simpl. rewrite Hty. simpl. rewrite Hp. simpl.
  rewrite alter_last.
  destruct σ as [[? ? ?] ? ?]; reflexivity.
Qed.

End Extraction.

(** ** One extraction, whatever the path *)

Lemma extract_record_frame P clock t (σ : state P) :
  exists r extra rep',
    _extract_record P clock t σ = (r, extracted t extra (fun _ => rep') σ) /\
    warnings_only (report (self σ)) rep' /\
    (forall m, r = Ok m ->
               m = {| proposedSnapshot := Some (length (heap σ)) |}) /\
    (forall e, r = Raise e -> raised_by_collaborator P t e).
Proof.
  destruct (get_latest_version P (t +:+ "-value")) as [rs|e] eqn:Hf.
  - destruct (String.eqb (schema_type (schema rs)) "AVRO") eqn:Hty.
    + destruct (avro_schema_to_mce_fields P (schema_str (schema rs)))
        as [fs|e] eqn:Hp.
      * eexists _, _, _. rewrite (extract_avro _ _ _ _ _ _ Hf Hty Hp).
        split; [reflexivity|].
        repeat split; intros; congruence.
      * eexists _, _, _. rewrite (extract_avro_raises _ _ _ _ _ _ Hf Hty Hp).
        split; [reflexivity|].
        repeat split; intros; try congruence.
        right. exists rs. split; congruence.
    + eexists _, _, _. rewrite (extract_unsupported _ _ _ _ _ Hf Hty).
      split; [reflexivity|].
      repeat split; intros; congruence.
  - destruct (exc_is_Exception e) eqn:He.
    + eexists _, _, _. rewrite (extract_fetch_caught _ _ _ _ _ Hf He).
      split; [reflexivity|].
      repeat split; intros; congruence.
    + eexists _, _, _. rewrite (extract_fetch_uncaught _ _ _ _ _ Hf He).
      split; [reflexivity|].
      repeat split; intros; try congruence.
      left. split; congruence.
Qed.

(** The clock reaches the time stamps only: with the same source object,
    two extractions of a topic agree on the result kind and on the source
    object they leave. *)
Lemma extract_record_clock P clock1 clock2 t (σ1 σ2 : state P) :
  self σ1 = self σ2 ->
  self (snd (_extract_record P clock1 t σ1))
  = self (snd (_extract_record P clock2 t σ2)) /\
  match fst (_extract_record P clock1 t σ1),
        fst (_extract_record P clock2 t σ2) with
  | Ok _, Ok _ => True
  | Raise e1, Raise e2 => e1 = e2
  | _, _ => False
  end.
Proof.
  intros Hs.
  destruct (get_latest_version P (t +:+ "-value")) as [rs|e] eqn:Hf.
  - destruct (String.eqb (schema_type (schema rs)) "AVRO") eqn:Hty.
    + destruct (avro_schema_to_mce_fields P (schema_str (schema rs)))
        as [fs|e] eqn:Hp.
      * rewrite !(extract_avro _ _ _ _ _ _ Hf Hty Hp). simpl.
        rewrite Hs. split; reflexivity || exact I.
      * rewrite !(extract_avro_raises _ _ _ _ _ _ Hf Hty Hp). simpl.
        rewrite Hs. split; reflexivity.
    + rewrite !(extract_unsupported _ _ _ _ _ Hf Hty). simpl.
      rewrite Hs. split; reflexivity || exact I.
  - destruct (exc_is_Exception e) eqn:He.
    + rewrite !(extract_fetch_caught _ _ _ _ _ Hf He). simpl.
      rewrite Hs. split; reflexivity || exact I.
    + rewrite !(extract_fetch_uncaught _ _ _ _ _ Hf He). simpl.
      rewrite Hs. split; reflexivity.
Qed.

(** ** One turn of the loop *)

Section Loop.

Context (P : Platform) (clock : nat -> Z).

Lemma loop_body_rejected t (σ : state P) :
  allowed (pattern_of σ) t = false ->
  loop_body P clock t σ
  = (Skip,
     with_report (fun r => report_dropped t (report_topic_scanned t r)) σ).
Proof.
  intros Hno. unfold loop_body, pattern_of in *. simpl.
  rewrite Hno. reflexivity.
Qed.

Lemma loop_body_accepted t (σ : state P) :
  allowed (pattern_of σ) t = true ->
  exists extra rep',
    warnings_only (report_topic_scanned t (report (self σ))) rep' /\
    let wu := {| id := "kafka-" +:+ t;
                 mce := {| proposedSnapshot := Some (length (heap σ)) |} |} in
    (loop_body P clock t σ
     = (Emit wu, extracted t extra (fun _ => report_workunit wu rep') σ) \/
     exists e,
       loop_body P clock t σ
       = (Abort e, extracted t extra (fun _ => rep') σ) /\
       raised_by_collaborator P t e).
Proof.
  intros Hyes. unfold loop_body, pattern_of in *. simpl. rewrite Hyes.
  destruct (extract_record_frame P clock t
              (with_report (report_topic_scanned t) σ))
    as (r & extra & rep' & Heq & Hfr & Hok & Herr).
  rewrite Heq. exists extra, rep'. split; [exact Hfr|].
  destruct r as [m|e].
  - left. rewrite (Hok m eq_refl). reflexivity.
  - right. exists e. split; [reflexivity|]. apply Herr. reflexivity.
Qed.

(** Whatever the turn does, it leaves the configuration, the consumer
    handle and the failures alone, counts the topic, and only adds to the
    store. *)
Lemma loop_body_frame t (σ : state P) :
  let σ' := snd (loop_body P clock t σ) in
  source_config (self σ') = source_config (self σ) /\
  consumer (self σ') = consumer (self σ) /\
  failures (get_report σ') = failures (get_report σ) /\
  topics_scanned (get_report σ') = topics_scanned (get_report σ) + 1 /\
  exists ext, heap σ' = heap σ ++ ext.
Proof.
  destruct (allowed (pattern_of σ) t) eqn:Ha.
  - destruct (loop_body_accepted t σ Ha)
      as (extra & rep' & (Hw & Hs & Hf & Hfi) & [Heq | (e & Heq & _)]);
      rewrite Heq; simpl in *; repeat split; try congruence; eauto.
  - rewrite (loop_body_rejected t σ Ha). simpl.
    repeat split. exists []. symmetry. apply app_nil_r.
Qed.

End Loop.

(** ** The whole loop *)

Section Run.

Context (P : Platform) (clock : nat -> Z).

Lemma run_topics_frame ts (σ : state P) :
  let o := run_topics P clock ts σ in
  source_config (self (final o)) = source_config (self σ) /\
  consumer (self (final o)) = consumer (self σ) /\
  failures (get_report (final o)) = failures (get_report σ) /\
  exists ext, heap (final o) = heap σ ++ ext.
Proof.
  revert σ. induction ts as [|t rest IH]; intros σ; simpl.
  - repeat split. exists []. symmetry. apply app_nil_r.
  - pose proof (loop_body_frame P clock t σ) as Hb. simpl in Hb.
    destruct (loop_body P clock t σ) as [[wu| |e] σ'] eqn:Hlb; simpl in *.
    + destruct Hb as (Hc & Hh & Hf & _ & ext & Hx).
      destruct (IH σ') as (Hc' & Hh' & Hf' & ext' & Hx').
      repeat split; try congruence.
      exists (ext ++ ext'). rewrite Hx', Hx. symmetry. apply app_assoc.
    + destruct Hb as (Hc & Hh & Hf & _ & ext & Hx).
      destruct (IH σ') as (Hc' & Hh' & Hf' & ext' & Hx').
      repeat split; try congruence.
      exists (ext ++ ext'). rewrite Hx', Hx. symmetry. apply app_assoc.
    + destruct Hb as (Hc & Hh & Hf & _ & Hx). repeat split; assumption.
Qed.

(** A loop that reaches its end has split the topics by the pattern. *)
Lemma run_topics_complete ts (σ : state P) :
  let o := run_topics P clock ts σ in
  error o = None ->
  map id (emitted o)
  = map (String.append "kafka-") (List.filter (allowed (pattern_of σ)) ts) /\
  filtered (get_report (final o))
  = filtered (get_report σ)
    ++ List.filter (fun t => negb (allowed (pattern_of σ) t)) ts /\
  topics_scanned (get_report (final o))
  = topics_scanned (get_report σ) + length ts /\
  workunits_produced (get_report (final o))
  = workunits_produced (get_report σ) + length (emitted o).
Proof.
  revert σ. induction ts as [|t rest IH]; intros σ; simpl.
  - intros _. rewrite app_nil_r. repeat split; lia.
  - destruct (allowed (pattern_of σ) t) eqn:Ha.
    + destruct (loop_body_accepted P clock t σ Ha)
        as (extra & rep' & (Hw & Hs & Hf & Hfi) & [Heq | (e & Heq & _)]);
        rewrite Heq; simpl; [|discriminate].
      intros Hnone. specialize (IH _ Hnone). simpl in IH.
      destruct IH as (Hids & Hfil & Hsc & Hwu).
      unfold pattern_of, get_report in *. simpl in *.
      split; [|split; [|split]].
      * rewrite Hids. reflexivity.
      * rewrite Hfil, Hfi. reflexivity.
      * rewrite Hsc, Hs. simpl. lia.
      * rewrite Hwu, Hw. simpl. lia.
    + rewrite (loop_body_rejected P clock t σ Ha). simpl.
      intros Hnone. specialize (IH _ Hnone). simpl in IH.
      destruct IH as (Hids & Hfil & Hsc & Hwu).
      unfold pattern_of, get_report in *. simpl in *.
      split; [|split; [|split]].
      * exact Hids.
      * rewrite Hfil, <- app_assoc. reflexivity.
      * rewrite Hsc. lia.
      * exact Hwu.
Qed.

(** Every unit of the sequence comes from an accepted topic, and at the end
    of the loop its record still points to that topic's snapshot, which
    starts with the status aspect. *)
Lemma run_topics_emitted ts (σ : state P) wu :
  let o := run_topics P clock ts σ in
  In wu (emitted o) ->
  exists t l extra,
    In t ts /\ allowed (pattern_of σ) t = true /\
    wu = {| id := "kafka-" +:+ t;
            mce := {| proposedSnapshot := Some l |} |} /\
    length (heap σ) <= l /\
    heap (final o) !! l
    = Some {| urn := dataset_urn "kafka" t "PROD";
              aspects := AStatus false :: extra |}.
Proof.
  revert σ. induction ts as [|t rest IH]; intros σ; simpl; [tauto|].
  destruct (allowed (pattern_of σ) t) eqn:Ha.
  - destruct (loop_body_accepted P clock t σ Ha)
      as (extra & rep' & _ & [Heq | (e & Heq & _)]);
      rewrite Heq; simpl; [|tauto].
    intros [Hhd | Htl].
    + exists t, (length (heap σ)), extra.
      repeat split; auto.
      match goal with
      | |- heap (final (run_topics _ _ _ ?s)) !! _ = _ =>
          destruct (run_topics_frame rest s) as (_ & _ & _ & ext & Hx)
      end.
      rewrite Hx. simpl. apply lookup_app_l_Some.
      apply list_lookup_middle. reflexivity.
    + destruct (IH _ Htl) as (t' & l & extra' & Hin & Ha' & Hwu & Hl & Hlk).
      exists t', l, extra'. simpl in Hl. rewrite length_app in Hl.
      repeat split; auto. lia.
  - rewrite (loop_body_rejected P clock t σ Ha). simpl.
    intros Hin.
    destruct (IH _ Hin) as (t' & l & extra' & Hin' & Ha' & Hwu & Hl & Hlk).
    exists t', l, extra'. repeat split; auto.
Qed.

(** An exception that ends the loop was raised by a collaborator while an
    accepted topic was extracted. *)
Lemma run_topics_error ts (σ : state P) e :
  error (run_topics P clock ts σ) = Some e ->
  exists t, In t ts /\ raised_by_collaborator P t e.
Proof.
  revert σ. induction ts as [|t rest IH]; intros σ; simpl; [discriminate|].
  destruct (allowed (pattern_of σ) t) eqn:Ha.
  - destruct (loop_body_accepted P clock t σ Ha)
      as (extra & rep' & _ & [Heq | (e' & Heq & Hby)]);
      rewrite Heq; simpl.
    + intros He. destruct (IH _ He) as (t' & Hin & Hby). eauto.
    + intros [= ->]. eauto.
  - rewrite (loop_body_rejected P clock t σ Ha). simpl.
    intros He. destruct (IH _ He) as (t' & Hin & Hby). eauto.
Qed.

(** Pulling from the generator until it stops gives the whole loop. *)
Lemma drain_suspended ts : forall (σ : state P) fuel,
  length ts < fuel ->
  drain P clock fuel (Suspended ts) σ = Some (run_topics P clock ts σ).
Proof.
  induction ts as [|t rest IH]; intros σ fuel Hfuel.
  - destruct fuel as [|n]; [lia|]. reflexivity.
  - destruct fuel as [|n]; [simpl in Hfuel; lia|].
    simpl in Hfuel. simpl.
    destruct (loop_body P clock t σ) as [[wu| |e] σ'] eqn:Hlb.
    + rewrite (IH σ' n) by lia. reflexivity.
    + specialize (IH σ' (S n) ltac:(lia)). simpl in IH. exact IH.
    + reflexivity.
Qed.

Lemma drain_created (σ : state P) fuel :
  match fetch_topics P σ with
  | Ok ts => length ts < fuel
  | Raise _ => 0 < fuel
  end ->
  drain P clock fuel Created σ = Some (run P clock σ).
Proof.
  unfold run. destruct (fetch_topics P σ) as [ts|e] eqn:Hft; intros Hfuel.
  - pose proof (drain_suspended ts σ fuel Hfuel) as Hd.
    destruct fuel as [|n]; [lia|]. simpl in *. rewrite Hft. exact Hd.
  - destruct fuel as [|n]; [lia|]. simpl. rewrite Hft. reflexivity.
Qed.

End Run.

(** ** The clock does not reach ids, errors or the report *)

Lemma loop_body_clock P clock1 clock2 t (σ1 σ2 : state P) :
  self σ1 = self σ2 ->
  self (snd (loop_body P clock1 t σ1)) = self (snd (loop_body P clock2 t σ2)) /\
  match fst (loop_body P clock1 t σ1), fst (loop_body P clock2 t σ2) with
  | Emit w1, Emit w2 => id w1 = id w2
  | Skip, Skip => True
  | Abort e1, Abort e2 => e1 = e2
  | _, _ => False
  end.
Proof.
  intros Hs. unfold loop_body. simpl. rewrite Hs.
  destruct (allowed (topic_patterns (source_config (self σ2))) t).
  - assert (Hs' : self (with_report (report_topic_scanned t) σ1)
                  = self (with_report (report_topic_scanned t) σ2))
      by (unfold with_report; simpl; rewrite Hs; reflexivity).
    destruct (extract_record_clock P clock1 clock2 t _ _ Hs') as (Hself & Hres).
    destruct (_extract_record P clock1 t _) as [[m1|e1] σ1'];
      destruct (_extract_record P clock2 t _) as [[m2|e2] σ2'];
      simpl in *; try contradiction.
    + rewrite Hself. split; reflexivity.
    + split; assumption.
  - simpl. rewrite Hs. split; [reflexivity | exact I].
Qed.

Lemma run_topics_clock P clock1 clock2 ts : forall (σ1 σ2 : state P),
  self σ1 = self σ2 ->
  map id (emitted (run_topics P clock1 ts σ1))
  = map id (emitted (run_topics P clock2 ts σ2)) /\
  error (run_topics P clock1 ts σ1) = error (run_topics P clock2 ts σ2) /\
  self (final (run_topics P clock1 ts σ1))
  = self (final (run_topics P clock2 ts σ2)).
Proof.
  induction ts as [|t rest IH]; intros σ1 σ2 Hs; simpl.
  - repeat split. exact Hs.
  - destruct (loop_body_clock P clock1 clock2 t σ1 σ2 Hs) as (Hself & Hres).
    destruct (loop_body P clock1 t σ1) as [[w1| |e1] σ1'];
      destruct (loop_body P clock2 t σ2) as [[w2| |e2] σ2'];
      simpl in *; try contradiction.
    + destruct (IH σ1' σ2' Hself) as (Hids & Herr & Hfin).
      rewrite Hres, Hids. repeat split; assumption.
    + apply IH. exact Hself.
    + subst e2. repeat split. exact Hself.
Qed.

(** ** Small facts used below *)

Lemma filter_split_length {A} (f : A -> bool) (l : list A) :
  length (List.filter f l) + length (List.filter (fun x => negb (f x)) l)
  = length l.
Proof.
  induction l as [|x l IH]; simpl; [reflexivity|].
  destruct (f x); simpl; lia.
Qed.

Lemma workunit_id_inj (t t' : string) :
  "kafka-" +:+ t = "kafka-" +:+ t' -> t = t'.
Proof. simpl. intros H. injection H. trivial. Qed.

(** A pull that yields hands out a unit whose record points, in the state
    the pull leaves, to a snapshot starting with the status aspect. *)
Lemma for_loop_yield P clock ts : forall (σ σ' : state P) wu g,
  for_loop P clock ts σ = (Yielded wu, g, σ') ->
  exists t l extra,
    In t ts /\
    wu = {| id := "kafka-" +:+ t; mce := {| proposedSnapshot := Some l |} |} /\
    heap σ' !! l
    = Some {| urn := dataset_urn "kafka" t "PROD";
              aspects := AStatus false :: extra |}.
Proof.
  induction ts as [|t rest IH]; intros σ σ' wu g; simpl; [discriminate|].
  destruct (allowed (pattern_of σ) t) eqn:Ha.
  - destruct (loop_body_accepted P clock t σ Ha)
      as (extra & rep' & _ & [Heq | (e & Heq & _)]);
      rewrite Heq; [|discriminate].
    intros [= <- <- <-].
    exists t, (length (heap σ)), extra. simpl.
    repeat split; auto. apply list_lookup_middle. reflexivity.
  - rewrite (loop_body_rejected P clock t σ Ha).
    intros Hfl. destruct (IH _ _ _ _ Hfl) as (t' & l & extra & Hin & Hwu & Hlk).
    exists t', l, extra. auto.
Qed.

(** ** Facts about a run and about [close] *)

(** Where an exception that leaves a run comes from. *)
Lemma run_error_origin P clock (σ : state P) e :
  error (run P clock σ) = Some e ->
  fetch_topics P σ = Raise e \/
  exists topics t,
    fetch_topics P σ = Ok topics /\ In t topics /\
    raised_by_collaborator P t e.
Proof.
  unfold run. destruct (fetch_topics P σ) as [ts|e'] eqn:Hft; simpl.
  - intros He. right.
    destruct (run_topics_error P clock ts σ e He) as (t & Hin & Hby).
    exists ts, t. auto.
  - intros [= ->]. left. reflexivity.
Qed.

(** [close] touches the consumer handle and nothing else. *)
Lemma close_frame P (σ : state P) :
  source_config (self (snd (close P σ))) = source_config (self σ) /\
  report (self (snd (close P σ))) = report (self σ) /\
  heap (snd (close P σ)) = heap σ /\
  ticks (snd (close P σ)) = ticks σ.
Proof.
  unfold close. destruct (consumer (self σ)) as [c|]; [|auto].
  destruct (consumer_close P c). simpl. auto.
Qed.

(** ** What one accepted topic does, exactly *)

Lemma loop_body_accepted_exact P clock t (σ : state P) :
  allowed (pattern_of σ) t = true ->
  let rep1 :=
    match expected_warning P t with
    | Some reason =>
        report_warning t reason (report_topic_scanned t (report (self σ)))
    | None => report_topic_scanned t (report (self σ))
    end in
  let wu := {| id := "kafka-" +:+ t;
               mce := {| proposedSnapshot := Some (length (heap σ)) |} |} in
  match extraction_error P t with
  | None =>
      exists extra,
        (extra = [] /\
         (exists e, get_latest_version P (t +:+ "-value") = Raise e) \/
         exists rs fs,
           get_latest_version P (t +:+ "-value") = Ok rs /\
           extra = [schema_aspect t (schema rs) fs (clock (ticks σ))] /\
           (String.eqb (schema_type (schema rs)) "AVRO" = false /\ fs = [] \/
            String.eqb (schema_type (schema rs)) "AVRO" = true /\
            avro_schema_to_mce_fields P (schema_str (schema rs)) = Ok fs)) /\
        loop_body P clock t σ
        = (Emit wu, extracted t extra (fun _ => report_workunit wu rep1) σ)
  | Some e =>
      loop_body P clock t σ = (Abort e, extracted t [] (fun _ => rep1) σ) /\
      raised_by_collaborator P t e
  end.
Proof.
  intros Hyes. unfold loop_body, expected_warning, extraction_error.
  unfold pattern_of in Hyes. simpl. rewrite Hyes.
  destruct (get_latest_version P (t +:+ "-value")) as [rs|e] eqn:Hf.
  - destruct (String.eqb (schema_type (schema rs)) "AVRO") eqn:Hty.
    + destruct (avro_schema_to_mce_fields P (schema_str (schema rs)))
        as [fs|e] eqn:Hp.
      * rewrite (extract_avro P clock t _ rs fs Hf Hty Hp).
        eexists. split; [|reflexivity].
        right. exists rs, fs. simpl. auto.
      * rewrite (extract_avro_raises P clock t _ rs e Hf Hty Hp).
        split; [reflexivity|]. right. exists rs. auto.
    + rewrite (extract_unsupported P clock t _ rs Hf Hty).
      eexists. split; [|reflexivity].
      right. exists rs, []. simpl. auto.
  - destruct (exc_is_Exception e) eqn:He.
    + rewrite (extract_fetch_caught P clock t _ e Hf He).
      exists []. split; [left; eauto | reflexivity].
    + rewrite (extract_fetch_uncaught P clock t _ e Hf He).
      split; [reflexivity|]. left. auto.
Qed.

Lemma run_topics_aborted P clock ts : forall (σ : state P) e,
  let o := run_topics P clock ts σ in
  error o = Some e ->
  exists pre t post,
    ts = pre ++ t :: post /\
    allowed (pattern_of σ) t = true /\
    extraction_error P t = Some e /\
    map id (emitted o)
    = map (String.append "kafka-") (List.filter (allowed (pattern_of σ)) pre) /\
    filtered (get_report (final o))
    = filtered (get_report σ)
      ++ List.filter (fun t => negb (allowed (pattern_of σ) t)) pre /\
    topics_scanned (get_report (final o))
    = topics_scanned (get_report σ) + length pre + 1 /\
    workunits_produced (get_report (final o))
    = workunits_produced (get_report σ) + length (emitted o).
Proof.
  induction ts as [|t rest IH]; intros σ e; simpl; [discriminate|].
  destruct (allowed (pattern_of σ) t) eqn:Ha.
  - pose proof (loop_body_accepted_exact P clock t σ Ha) as Hex.
    simpl in Hex. destruct (extraction_error P t) as [e'|] eqn:Herr.
    + destruct Hex as (Heq & _). rewrite Heq. simpl. intros [= ->].
      exists [], t, rest. unfold get_report. simpl.
      destruct (expected_warning P t); simpl;
        repeat split; auto; try lia; rewrite app_nil_r; reflexivity.
    + destruct Hex as (extra & _ & Heq). rewrite Heq. simpl. intros He.
      destruct (IH _ _ He)
        as (pre & t' & post & -> & Ha' & Herr' & Hids & Hfil & Hsc & Hwu).
      exists (t :: pre), t', post.
      unfold pattern_of, get_report in *. simpl in *. rewrite Ha.
      split; [reflexivity|]. split; [exact Ha'|]. split; [exact Herr'|].
      simpl. rewrite Hids, Hfil, Hsc, Hwu.
      destruct (expected_warning P t); simpl; repeat split; lia.
  - rewrite (loop_body_rejected P clock t σ Ha). simpl. intros He.
    destruct (IH _ _ He)
      as (pre & t' & post & -> & Ha' & Herr' & Hids & Hfil & Hsc & Hwu).
    exists (t :: pre), t', post.
    unfold pattern_of, get_report in *. simpl in *. rewrite Ha. simpl.
    split; [reflexivity|]. split; [exact Ha'|]. split; [exact Herr'|].
    rewrite Hids, Hfil, Hsc, Hwu, <- app_assoc. simpl.
    repeat split; lia.
Qed.




(** * The claims *)

(** ** C1: scan, then filter or emit *)




(** ** C2: a failed schema fetch is a warning *)

(** C2: for an accepted topic whose fetch from the registry raises an
    [Exception], the extraction catches it and returns the record, the
    topic's list of warnings grows by exactly one entry (no other topic's
    list changes, nor do the failures), and the turn emits the work unit
    [kafka-<topic>] whose snapshot holds the status aspect and nothing
    else. *)
Theorem fetch_failure_is_warning P clock t (σ : state P) e :
  allowed (pattern_of σ) t = true ->
  get_latest_version P (t +:+ "-value") = Raise e ->
  exc_is_Exception e = true ->
  exists wu σ',
    loop_body P clock t σ = (Emit wu, σ') /\
    id wu = "kafka-" +:+ t /\
    fst (_extract_record P clock t (with_report (report_topic_scanned t) σ))
    = Ok (mce wu) /\
    snapshot_of σ' wu
    = Some {| urn := dataset_urn "kafka" t "PROD";
              aspects := [AStatus false] |} /\
    warnings (get_report σ') !! t
    = Some (default [] (warnings (get_report σ) !! t)
            ++ ["failed to get schema: " +:+ exc_str e]) /\
    (forall t', t <> t' ->
                warnings (get_report σ') !! t' = warnings (get_report σ) !! t') /\
    failures (get_report σ') = failures (get_report σ).
Proof.
  intros Hyes Hf He.
  unfold loop_body. unfold pattern_of in Hyes. simpl. rewrite Hyes.
  rewrite (extract_fetch_caught P clock t _ e Hf He).
  eexists _, _. split; [reflexivity|]. simpl.
  split; [reflexivity|]. split; [reflexivity|]. split.
  - unfold snapshot_of. simpl. apply list_lookup_middle. reflexivity.
  - unfold get_report. simpl. split; [apply append_reason_lookup|].
    split; [|reflexivity].
    intros t' Hne. apply append_reason_lookup_ne. exact Hne.
Qed.

(** C2, instance: Scenario B, the topic events on a registry that has no
    subject for it; one warning, one unit, the status aspect only. *)
Lemma fetch_failure_is_warning_witness :
  let σ := opened (fresh_source scenario_B false) in
  (allowed (pattern_of σ) "events" = true /\
   get_latest_version scenario_B "events-value" = Raise subject_not_found /\
   exc_is_Exception subject_not_found = true) /\
  exists wu σ',
    loop_body scenario_B epoch "events" σ = (Emit wu, σ') /\
    id wu = "kafka-events" /\
    fst (_extract_record scenario_B epoch "events"
           (with_report (report_topic_scanned "events") σ))
    = Ok (mce wu) /\
    snapshot_of σ' wu
    = Some {| urn := dataset_urn "kafka" "events" "PROD";
              aspects := [AStatus false] |} /\
    warnings (get_report σ') !! "events"
    = Some (default [] (warnings (get_report σ) !! "events")
            ++ ["failed to get schema: " +:+ exc_str subject_not_found]) /\
    (forall t', "events" <> t' ->
                warnings (get_report σ') !! t' = warnings (get_report σ) !! t') /\
    failures (get_report σ') = failures (get_report σ).
Proof.
  split; [repeat split|].
  exact (fetch_failure_is_warning scenario_B epoch "events"
           (opened (fresh_source scenario_B false)) subject_not_found
           eq_refl eq_refl eq_refl).
Defined.

(** ** C3: a schema of an unsupported kind *)

(** C3, at a concrete input: the topic events has a PROTOBUF schema
    registered; the emitted record's snapshot contains a schema aspect, with
    no fields, after the status aspect. *)
Lemma unsupported_kind_keeps_schema_aspect :
  let o := run scenario_protobuf epoch
             (opened (fresh_source scenario_protobuf false)) in
  map id (emitted o) = ["kafka-events"] /\
  map (snapshot_of (final o)) (emitted o)
  = [Some {| urn := "urn:li:dataset:(urn:li:dataPlatform:kafka,events,PROD)";
             aspects := [AStatus false;
                         schema_aspect "events" protobuf_schema []
                           1600000000] |}] /\
  warnings (get_report (final o)) !! "events"
  = Some ["unable to parse kafka schema type PROTOBUF"].
Proof. vm_compute. repeat split. Qed.

(** C3 (amended): for an accepted topic whose schema fetch succeeds with a
    schema type other than AVRO, one warning is recorded for the topic and
    the emitted record does contain a schema aspect, right after the status
    aspect: it carries the raw payload, the topic name and the registry's
    hash, and an empty list of fields. *)
Theorem unsupported_kind_warns_and_keeps_payload P clock t (σ : state P) rs :
  allowed (pattern_of σ) t = true ->
  get_latest_version P (t +:+ "-value") = Ok rs ->
  schema_type (schema rs) <> "AVRO" ->
  exists wu σ' sm,
    loop_body P clock t σ = (Emit wu, σ') /\
    id wu = "kafka-" +:+ t /\
    warnings (get_report σ') !! t
    = Some (default [] (warnings (get_report σ) !! t)
            ++ ["unable to parse kafka schema type "
                +:+ schema_type (schema rs)]) /\
    snapshot_of σ' wu
    = Some {| urn := dataset_urn "kafka" t "PROD";
              aspects := [AStatus false; ASchemaMetadata sm] |} /\
    fields sm = [] /\
    documentSchema (platformSchema sm) = schema_str (schema rs) /\
    schemaName sm = t /\
    hash sm = str_int (schema_hash (schema rs)).
Proof.
  intros Hyes Hf Hty.
  apply String.eqb_neq in Hty.
  unfold loop_body. unfold pattern_of in Hyes. simpl. rewrite Hyes.
  rewrite (extract_unsupported P clock t _ rs Hf Hty).
  eexists _, _, _. split; [reflexivity|]. simpl.
  split; [reflexivity|]. split.
  - unfold get_report. simpl. apply append_reason_lookup.
  - split.
    + unfold snapshot_of. simpl. apply list_lookup_middle. reflexivity.
    + repeat split.
Qed.

(** C3, instance: the PROTOBUF schema of the topic events. *)
Lemma unsupported_kind_warns_and_keeps_payload_witness :
  let σ := opened (fresh_source scenario_protobuf false) in
  (allowed (pattern_of σ) "events" = true /\
   get_latest_version scenario_protobuf "events-value"
   = Ok {| schema := protobuf_schema |} /\
   schema_type protobuf_schema <> "AVRO") /\
  exists wu σ' sm,
    loop_body scenario_protobuf epoch "events" σ = (Emit wu, σ') /\
    id wu = "kafka-events" /\
    warnings (get_report σ') !! "events"
    = Some (default [] (warnings (get_report σ) !! "events")
            ++ ["unable to parse kafka schema type PROTOBUF"]) /\
    snapshot_of σ' wu
    = Some {| urn := dataset_urn "kafka" "events" "PROD";
              aspects := [AStatus false; ASchemaMetadata sm] |} /\
    fields sm = [] /\
    documentSchema (platformSchema sm) = schema_str protobuf_schema /\
    schemaName sm = "events" /\
    hash sm = str_int (schema_hash protobuf_schema).
Proof.
  assert (Hty : schema_type protobuf_schema <> "AVRO") by (simpl; discriminate).
  split; [repeat split; exact Hty|].
  exact (unsupported_kind_warns_and_keeps_payload scenario_protobuf epoch
           "events" (opened (fresh_source scenario_protobuf false))
           {| schema := protobuf_schema |} eq_refl eq_refl Hty).
Defined.

(** ** C4: errors while the record is built *)




(** ** C5 and C6: [close] *)

(** C5, at a concrete input: after a successful [close] on the broker of
    Scenario A, calling [get_workunits] makes a generator without failing,
    and the first pull fails with the consumer's own [RuntimeError], which
    is no [SourceClosed]. *)
Lemma closed_source_raises_client_error :
  let σ0 := opened (fresh_source scenario_A false) in
  let σ1 := snd (close scenario_A σ0) in
  fst (close scenario_A σ0) = Ok tt /\
  get_workunits scenario_A (self σ1) = Created /\
  next scenario_A epoch (get_workunits scenario_A (self σ1)) σ1
  = (Propagated (runtime_error "Consumer closed"), Exhausted, σ1) /\
  exc_class (runtime_error "Consumer closed") <> "SourceClosed".
Proof. repeat split. simpl. discriminate. Qed.

(** C5 (amended): the source keeps no closed state. After [close], which
    leaves configuration and report as they were, [get_workunits] behaves
    as on any source with that consumer handle: the first pull asks the
    consumer for its topics; if that call raises, its exception leaves
    [get_workunits] unchanged, and if it answers, the enumeration runs over
    the answer. No exception leaves a run but one raised by the topic
    enumeration, the registry or the field conversion. *)
Theorem get_workunits_after_close P clock (σ : state P) :
  let σ1 := snd (close P σ) in
  (source_config (self σ1) = source_config (self σ) /\
   report (self σ1) = report (self σ)) /\
  (forall e,
     fetch_topics P σ1 = Raise e ->
     next P clock (get_workunits P (self σ1)) σ1
     = (Propagated e, Exhausted, σ1)) /\
  (forall topics,
     fetch_topics P σ1 = Ok topics ->
     next P clock (get_workunits P (self σ1)) σ1 = for_loop P clock topics σ1 /\
     run P clock σ1 = run_topics P clock topics σ1) /\
  (forall e,
     error (run P clock σ1) = Some e ->
     fetch_topics P σ1 = Raise e \/
     exists topics t,
       fetch_topics P σ1 = Ok topics /\ In t topics /\
       raised_by_collaborator P t e).
Proof.
  simpl. split; [|split; [|split]].
  - destruct (close_frame P σ) as (Hc & Hr & _). auto.
  - intros e Hft. unfold get_workunits, next. rewrite Hft. reflexivity.
  - intros topics Hft. unfold get_workunits, next, run. rewrite Hft. auto.
  - intros e. apply run_error_origin.
Qed.

(** C5, instance: the closed consumer of Scenario A. *)
Lemma get_workunits_after_close_witness :
  let σ1 := snd (close scenario_A (opened (fresh_source scenario_A false))) in
  fetch_topics scenario_A σ1 = Raise (runtime_error "Consumer closed") /\
  next scenario_A epoch (get_workunits scenario_A (self σ1)) σ1
  = (Propagated (runtime_error "Consumer closed"), Exhausted, σ1).
Proof.
  split; [reflexivity|].
  exact (proj1 (proj2 (get_workunits_after_close scenario_A epoch
                         (opened (fresh_source scenario_A false))))
           (runtime_error "Consumer closed") eq_refl).
Defined.

(** C6, at a concrete input: on the broker of Scenario A the first [close]
    succeeds and the second one fails, because the source calls the
    consumer's [close] again on the handle it has already closed. *)
Lemma second_close_raises :
  let σ0 := opened (fresh_source scenario_A false) in
  let σ1 := snd (close scenario_A σ0) in
  close scenario_A σ0 = (Ok tt, σ1) /\
  fst (close scenario_A σ1)
  = Raise (runtime_error "Consumer already closed").
Proof. split; reflexivity. Qed.

(** C6 (amended): [close] changes nothing but the consumer handle. On a
    source whose consumer is [None] it does nothing and succeeds, any number
    of times. On a source with a consumer it calls the consumer's [close] on
    every call, and answers what that call answers: a repeated [close]
    succeeds without further effect when the consumer's [close] accepts the
    handle the first call left. A construction that fails leaves no source
    object. *)
Theorem close_delegates_to_consumer P (σ : state P) :
  let σ1 := snd (close P σ) in
  (source_config (self σ1) = source_config (self σ) /\
   report (self σ1) = report (self σ) /\
   heap σ1 = heap σ /\ ticks σ1 = ticks σ) /\
  (consumer (self σ) = None ->
   close P σ = (Ok tt, σ) /\ close P σ1 = (Ok tt, σ1)) /\
  (forall c,
     consumer (self σ) = Some c ->
     fst (close P σ) = fst (consumer_close P c) /\
     consumer (self σ1) = Some (snd (consumer_close P c))) /\
  (forall c1,
     consumer (self σ1) = Some c1 ->
     consumer_close P c1 = (Ok tt, c1) ->
     close P σ1 = (Ok tt, σ1)) /\
  (forall config e,
     new_consumer P
       (consumer_config (connection config) ∪
        <["bootstrap.servers" := bootstrap (connection config)]>
          {["group.id" := "test"]}) = Raise e ->
     __init__ P config = Raise e).
Proof.
  simpl. split; [apply close_frame|]. split; [|split; [|split]].
  - intros Hnone. unfold close. rewrite Hnone. simpl. rewrite Hnone. auto.
  - intros c Hc. unfold close. rewrite Hc.
    destruct (consumer_close P c). auto.
  - intros c1 Hc1 Hok.
    generalize dependent (snd (close P σ)). intros σ1 Hc1.
    unfold close. rewrite Hc1, Hok.
    destruct σ1 as [[cfg cons rep] h n]. simpl in *. subst cons. reflexivity.
  - intros config e Hnew. unfold __init__. rewrite Hnew. reflexivity.
Qed.

(** C6, instances: a source without a consumer, and a consumer whose
    [close] accepts a closed handle. *)
Lemma close_delegates_to_consumer_witness :
  (let σ := opened (handleless_source scenario_A) in
   consumer (self σ) = None /\
   close scenario_A σ = (Ok tt, σ) /\
   close scenario_A (snd (close scenario_A σ))
   = (Ok tt, snd (close scenario_A σ))) /\
  (let σ := opened (fresh_source scenario_lenient false) in
   let σ1 := snd (close scenario_lenient σ) in
   (consumer (self σ1) = Some true /\
    consumer_close scenario_lenient true = (Ok tt, true)) /\
   close scenario_lenient σ1 = (Ok tt, σ1)).
Proof.
  split.
  - split; [reflexivity|].
    exact (proj1 (proj2 (close_delegates_to_consumer scenario_A
                           (opened (handleless_source scenario_A))))
             eq_refl).
  - split; [split; reflexivity|].
    exact (proj1 (proj2 (proj2 (proj2
             (close_delegates_to_consumer scenario_lenient
                (opened (fresh_source scenario_lenient false))))))
             true eq_refl eq_refl).
Defined.

(** ** C7: two runs on the same platform answers *)

(** C7: two sources opened from the same configuration on the same platform
    and run to the end, at whatever times the clock shows during either run,
    produce the same work unit ids in the same order, end the same way, and
    leave the same report: the same scanned and produced counts, the same
    filtered list, the same warnings and failures, hence the same keys. The
    sequence a consumer pulls from the generator is that run. *)
Theorem runs_are_reproducible P clock1 clock2 config (s1 s2 : KafkaSource P) :
  __init__ P config = Ok s1 ->
  __init__ P config = Ok s2 ->
  let o1 := run P clock1 (opened s1) in
  let o2 := run P clock2 (opened s2) in
  map id (emitted o1) = map id (emitted o2) /\
  error o1 = error o2 /\
  get_report (final o1) = get_report (final o2) /\
  dom (warnings (get_report (final o1)))
  = dom (warnings (get_report (final o2))) /\
  dom (failures (get_report (final o1)))
  = dom (failures (get_report (final o2))) /\
  (exists fuel,
     drain P clock1 fuel (get_workunits P s1) (opened s1) = Some o1 /\
     drain P clock2 fuel (get_workunits P s2) (opened s2) = Some o2).
Proof.
  intros H1 H2. rewrite H1 in H2. injection H2 as <-. simpl.
  assert (Hrun : map id (emitted (run P clock1 (opened s1)))
                 = map id (emitted (run P clock2 (opened s1))) /\
                 error (run P clock1 (opened s1))
                 = error (run P clock2 (opened s1)) /\
                 self (final (run P clock1 (opened s1)))
                 = self (final (run P clock2 (opened s1)))).
  { unfold run. destruct (fetch_topics P (opened s1)) as [ts|e].
    - apply run_topics_clock. reflexivity.
    - repeat split. }
  destruct Hrun as (Hids & Herr & Hself).
  unfold get_report. rewrite Hself.
  repeat split; try assumption.
  destruct (fetch_topics P (opened s1)) as [ts|e] eqn:Hft.
  - exists (S (length ts)). unfold get_workunits.
    split; apply drain_created; rewrite Hft; lia.
  - exists 1. unfold get_workunits.
    split; apply drain_created; rewrite Hft; lia.
Qed.

(** C7, instance: Scenario A run at two different times. *)
Lemma runs_are_reproducible_witness :
  let s := fresh_source scenario_A false in
  let o1 := run scenario_A epoch (opened s) in
  let o2 := run scenario_A (fun n => (epoch n + 86400)%Z) (opened s) in
  __init__ scenario_A default_config = Ok s /\
  map id (emitted o1) = map id (emitted o2) /\
  error o1 = error o2 /\
  get_report (final o1) = get_report (final o2).
Proof.
  split; [reflexivity|].
  destruct (runs_are_reproducible scenario_A epoch
              (fun n => (epoch n + 86400)%Z) default_config
              (fresh_source scenario_A false) (fresh_source scenario_A false)
              eq_refl eq_refl) as (Hids & Herr & Hrep & _).
  split; [exact Hids|]. split; [exact Herr | exact Hrep].
Defined.

(** ** C8: the entity urn *)

(** C8: every work unit of a run belongs to a topic [t] of the enumeration,
    and the snapshot of its record has the urn
    [urn:li:dataset:(urn:li:dataPlatform:kafka,<t>,PROD)]. *)
Theorem entity_urn_format P clock (σ : state P) wu :
  In wu (emitted (run P clock σ)) ->
  exists topics t snap,
    fetch_topics P σ = Ok topics /\ In t topics /\
    id wu = "kafka-" +:+ t /\
    snapshot_of (final (run P clock σ)) wu = Some snap /\
    urn snap
    = "urn:li:dataset:(urn:li:dataPlatform:kafka," +:+ t +:+ ",PROD)".
Proof.
  unfold run. destruct (fetch_topics P σ) as [ts|e]; simpl; [|tauto].
  intros Hin.
  destruct (run_topics_emitted P clock ts σ wu Hin)
    as (t & l & extra & Ht & _ & -> & _ & Hlk).
  exists ts, t. eexists. repeat split; try assumption.
  - unfold snapshot_of. simpl. exact Hlk.
  - reflexivity.
Qed.

(** C8, instance: the unit of the topic orders in Scenario A. *)
Lemma entity_urn_format_witness :
  let σ := opened (fresh_source scenario_A false) in
  let wu := {| id := "kafka-orders";
               mce := {| proposedSnapshot := Some 0 |} |} in
  In wu (emitted (run scenario_A epoch σ)) /\
  exists topics t snap,
    fetch_topics scenario_A σ = Ok topics /\ In t topics /\
    id wu = "kafka-" +:+ t /\
    snapshot_of (final (run scenario_A epoch σ)) wu = Some snap /\
    urn snap
    = "urn:li:dataset:(urn:li:dataPlatform:kafka," +:+ t +:+ ",PROD)".
Proof.
  assert (Hin : In {| id := "kafka-orders";
                      mce := {| proposedSnapshot := Some 0 |} |}
                  (emitted (run scenario_A epoch
                              (opened (fresh_source scenario_A false)))))
    by (left; reflexivity).
  split; [exact Hin|].
  exact (entity_urn_format scenario_A epoch _ _ Hin).
Defined.

(** ** C9: the scanned topics are the filtered and the emitted ones *)

(** C9: on a freshly constructed source whose consumer lists [topics], a run
    that reaches the end of the enumeration leaves
    [topics_scanned = len(filtered) + number of work units], has scanned
    every topic, and has put each topic in exactly one of the two: it is in
    [filtered] and no unit has its id, or it is not in [filtered] and a unit
    has its id. With no topics the run ends at once, without an exception:
    no units, nothing scanned, nothing filtered. *)
Theorem scanned_is_filtered_plus_emitted P clock config (s : KafkaSource P)
    topics :
  __init__ P config = Ok s ->
  fetch_topics P (opened s) = Ok topics ->
  let o := run P clock (opened s) in
  (error o = None ->
   topics_scanned (get_report (final o))
   = length (filtered (get_report (final o))) + length (emitted o) /\
   topics_scanned (get_report (final o)) = length topics /\
   workunits_produced (get_report (final o)) = length (emitted o) /\
   forall t,
     In t topics ->
     (In t (filtered (get_report (final o))) /\
      ~ In ("kafka-" +:+ t) (map id (emitted o))) \/
     (~ In t (filtered (get_report (final o))) /\
      In ("kafka-" +:+ t) (map id (emitted o)))) /\
  (topics = [] ->
   emitted o = [] /\ error o = None /\
   topics_scanned (get_report (final o)) = 0 /\
   filtered (get_report (final o)) = []).
Proof.
  intros Hinit Hft. simpl. unfold run. rewrite Hft.
  assert (Hrep : get_report (opened s) = new_report).
  { unfold __init__ in Hinit.
    destruct (new_consumer P _); [|discriminate].
    destruct (new_registry P _); [|discriminate].
    injection Hinit as <-. reflexivity. }
  split.
  - intros Hnone.
    destruct (run_topics_complete P clock topics (opened s) Hnone)
      as (Hids & Hfil & Hsc & Hwu).
    rewrite Hrep in Hfil, Hsc, Hwu. simpl in Hfil, Hsc, Hwu.
    assert (Hlen : length (emitted (run_topics P clock topics (opened s)))
                   = length (List.filter (allowed (pattern_of (opened s)))
                               topics)).
    { rewrite <- (length_map id), Hids, length_map. reflexivity. }
    split; [|split; [|split]].
    + rewrite Hsc, Hfil, Hlen.
      pose proof (filter_split_length (allowed (pattern_of (opened s)))
                    topics). lia.
    + exact Hsc.
    + exact Hwu.
    + intros t Hin. rewrite Hids, Hfil.
      destruct (allowed (pattern_of (opened s)) t) eqn:Ha.
      * right. split.
        -- rewrite filter_In, Ha. simpl. intros [_ Hf]. discriminate.
        -- apply in_map. apply filter_In. auto.
      * left. split.
        -- apply filter_In. rewrite Ha. auto.
        -- rewrite in_map_iff. intros (t' & Heq & Hin').
           apply workunit_id_inj in Heq. subst t'.
           apply filter_In in Hin'. destruct Hin' as [_ Hf]. congruence.
  - intros ->. simpl. rewrite Hrep. repeat split.
Qed.

(** C9, instance: Scenario A, three scanned, one filtered, two emitted. *)
Lemma scanned_is_filtered_plus_emitted_witness :
  let s := fresh_source scenario_A false in
  let o := run scenario_A epoch (opened s) in
  (__init__ scenario_A default_config = Ok s /\
   fetch_topics scenario_A (opened s)
   = Ok ["orders"; "_internal"; "customers"] /\
   error o = None) /\
  topics_scanned (get_report (final o))
  = length (filtered (get_report (final o))) + length (emitted o) /\
  topics_scanned (get_report (final o)) = 3.
Proof.
  split; [repeat split|].
  destruct (proj1 (scanned_is_filtered_plus_emitted scenario_A epoch
                     default_config (fresh_source scenario_A false)
                     ["orders"; "_internal"; "customers"] eq_refl eq_refl)
              eq_refl) as (Hsum & Hlen & _).
  split; [exact Hsum | exact Hlen].
Defined.

(** ** C10: the status aspect comes first *)

(** C10: whenever a pull yields a work unit, the snapshot its record points
    to has [Status(removed=False)] as its first aspect in the state the pull
    leaves, whatever the registry and the field conversion answered; and
    every unit of a run still has it there when the run has ended. *)
Theorem status_aspect_first P clock :
  (forall g g' (σ σ' : state P) wu,
     next P clock g σ = (Yielded wu, g', σ') ->
     exists snap others,
       snapshot_of σ' wu = Some snap /\
       aspects snap = AStatus false :: others) /\
  (forall (σ : state P) wu,
     In wu (emitted (run P clock σ)) ->
     exists snap others,
       snapshot_of (final (run P clock σ)) wu = Some snap /\
       aspects snap = AStatus false :: others).
Proof.
  split.
  - intros g g' σ σ' wu Hnext.
    assert (Hfl : exists ts, for_loop P clock ts σ = (Yielded wu, g', σ')).
    { destruct g as [|rest|]; simpl in Hnext.
      - destruct (fetch_topics P σ) as [ts|e]; [eauto | discriminate].
      - eauto.
      - discriminate. }
    destruct Hfl as (ts & Hfl).
    destruct (for_loop_yield P clock ts σ σ' wu g' Hfl)
      as (t & l & extra & _ & -> & Hlk).
    eexists _, extra. unfold snapshot_of. simpl. split; [exact Hlk|].
    reflexivity.
  - intros σ wu. unfold run.
    destruct (fetch_topics P σ) as [ts|e]; simpl; [|tauto].
    intros Hin.
    destruct (run_topics_emitted P clock ts σ wu Hin)
      as (t & l & extra & _ & _ & -> & _ & Hlk).
    eexists _, extra. unfold snapshot_of. simpl. split; [exact Hlk|].
    reflexivity.
Qed.

(** C10, instance: the first pull on the PROTOBUF topic, whose snapshot has
    a schema aspect after the status aspect. *)
Lemma status_aspect_first_witness :
  let σ := opened (fresh_source scenario_protobuf false) in
  let pull := next scenario_protobuf epoch Created σ in
  let wu := {| id := "kafka-events";
               mce := {| proposedSnapshot := Some 0 |} |} in
  pull = (Yielded wu, Suspended [], snd pull) /\
  exists snap others,
    snapshot_of (snd pull) wu = Some snap /\
    aspects snap = AStatus false :: others.
Proof.
  split; [reflexivity|].
  exact (proj1 (status_aspect_first scenario_protobuf epoch)
           Created (Suspended [])
           (opened (fresh_source scenario_protobuf false)) _ _ eq_refl).
Defined.

(** * Further properties of the source *)

(** ** The report *)

Lemma append_reason_dom topic reason (d : gmap string (list string)) :
  dom (append_reason topic reason d) = {[topic]} ∪ dom d.
Proof.
  unfold append_reason. rewrite dom_alter_L.
  destruct (d !! topic) as [l|] eqn:E.
  - assert (Hin : topic ∈ dom d) by (apply elem_of_dom; eauto).
    apply set_eq. intros k. rewrite elem_of_union, elem_of_singleton.
    split; [auto | intros [->|Hk]; assumption].
  - apply dom_insert_L.
Qed.

Lemma append_reason_comm t1 r1 t2 r2 (d : gmap string (list string)) :
  t1 <> t2 ->
  append_reason t1 r1 (append_reason t2 r2 d)
  = append_reason t2 r2 (append_reason t1 r1 d).
Proof.
  intros Hne. apply map_eq. intros k.
  destruct (decide (k = t1)) as [->|Hk1].
  - rewrite append_reason_lookup, !append_reason_lookup_ne by congruence.
    rewrite append_reason_lookup. reflexivity.
  - destruct (decide (k = t2)) as [->|Hk2].
    + rewrite append_reason_lookup_ne by congruence.
      rewrite !append_reason_lookup.
      rewrite append_reason_lookup_ne by congruence. reflexivity.
    + rewrite !append_reason_lookup_ne by congruence. reflexivity.
Qed.

(** X1: [report_warning] and [report_failure] put the reason at the end of
    the topic's list, starting the list when the topic has none; the topic
    becomes a key, no other key changes, and the rest of the report,
    the other dict included, stays as it was. *)
Theorem report_reason_appends topic reason (r : KafkaSourceReport) :
  (warnings (report_warning topic reason r) !! topic
   = Some (default [] (warnings r !! topic) ++ [reason]) /\
   (forall other, topic <> other ->
      warnings (report_warning topic reason r) !! other
      = warnings r !! other) /\
   dom (warnings (report_warning topic reason r))
   = {[topic]} ∪ dom (warnings r) /\
   failures (report_warning topic reason r) = failures r /\
   filtered (report_warning topic reason r) = filtered r /\
   topics_scanned (report_warning topic reason r) = topics_scanned r) /\
  (failures (report_failure topic reason r) !! topic
   = Some (default [] (failures r !! topic) ++ [reason]) /\
   (forall other, topic <> other ->
      failures (report_failure topic reason r) !! other
      = failures r !! other) /\
   dom (failures (report_failure topic reason r))
   = {[topic]} ∪ dom (failures r) /\
   warnings (report_failure topic reason r) = warnings r /\
   filtered (report_failure topic reason r) = filtered r /\
   topics_scanned (report_failure topic reason r) = topics_scanned r).
Proof.
  split; simpl.
  - split; [apply append_reason_lookup|].
    split; [intros other Hne; apply append_reason_lookup_ne; exact Hne|].
    split; [apply append_reason_dom|]. auto.
  - split; [apply append_reason_lookup|].
    split; [intros other Hne; apply append_reason_lookup_ne; exact Hne|].
    split; [apply append_reason_dom|]. auto.
Qed.

(** X1, instance: a first warning for the topic events. *)
Lemma report_reason_appends_witness :
  "events" <> "orders" /\
  warnings (report_warning "events" "no schema" new_report) !! "orders"
  = warnings new_report !! "orders".
Proof.
  assert (Hne : "events" <> "orders") by discriminate.
  split; [exact Hne|].
  exact (proj1 (proj2 (proj1
           (report_reason_appends "events" "no schema" new_report)))
           "orders" Hne).
Defined.

(** X2: when warnings for two different topics are reported in one order
    or the other, every topic ends with the same list of reasons, and the
    rest of the report is the same (the order of the keys is not part of
    this statement); a warning and a failure do not change each other's
    lists; two warnings for the same topic are kept in the order of the
    calls. *)
Theorem report_order t1 r1 t2 r2 (r : KafkaSourceReport) :
  (t1 <> t2 ->
   let a := report_warning t1 r1 (report_warning t2 r2 r) in
   let b := report_warning t2 r2 (report_warning t1 r1 r) in
   (forall k, warnings a !! k = warnings b !! k) /\
   warnings a !! t1 = Some (default [] (warnings r !! t1) ++ [r1]) /\
   warnings a !! t2 = Some (default [] (warnings r !! t2) ++ [r2]) /\
   failures a = failures b /\ filtered a = filtered b /\
   topics_scanned a = topics_scanned b /\
   workunits_produced a = workunits_produced b) /\
  (forall k,
     warnings (report_failure t2 r2 (report_warning t1 r1 r)) !! k
     = warnings (report_warning t1 r1 r) !! k /\
     failures (report_warning t1 r1 (report_failure t2 r2 r)) !! k
     = failures (report_failure t2 r2 r) !! k) /\
  warnings (report_warning t1 r2 (report_warning t1 r1 r)) !! t1
  = Some (default [] (warnings r !! t1) ++ [r1; r2]).
Proof.
  split; [|split].
  - intros Hne. simpl. split; [|split; [|split]].
    + intros k. rewrite (append_reason_comm t1 r1 t2 r2 _ Hne). reflexivity.
    + rewrite append_reason_lookup, append_reason_lookup_ne by congruence.
      reflexivity.
    + rewrite append_reason_lookup_ne by exact Hne.
      apply append_reason_lookup.
    + auto.
  - intros k. split; reflexivity.
  - simpl. rewrite !append_reason_lookup. simpl.
    rewrite <- app_assoc. reflexivity.
Qed.

(** X2, instance: warnings for orders and customers. *)
Lemma report_order_witness :
  let a := report_warning "orders" "a"
             (report_warning "customers" "b" new_report) in
  let b := report_warning "customers" "b"
             (report_warning "orders" "a" new_report) in
  "orders" <> "customers" /\
  (forall k, warnings a !! k = warnings b !! k) /\
  warnings a !! "orders" = Some (default [] (warnings new_report !! "orders")
                                 ++ ["a"]).
Proof.
  assert (Hne : "orders" <> "customers") by discriminate.
  split; [exact Hne|].
  destruct (proj1 (report_order "orders" "a" "customers" "b" new_report) Hne)
    as (Hall & Hfirst & _).
  split; [exact Hall | exact Hfirst].
Defined.

(** ** Runs that end on an exception *)

Lemma NoDup_workunit_ids (ts : list string) :
  List.NoDup ts -> List.NoDup (map (String.append "kafka-") ts).
Proof.
  induction 1 as [|t ts Hnotin Hnd IH]; simpl; constructor.
  - rewrite in_map_iff. intros (t' & Heq & Hin).
    apply workunit_id_inj in Heq. subst t'. contradiction.
  - exact IH.
Qed.

(** X3: when a run ends on an exception, that exception is the one the
    extraction of some accepted topic raises; the units emitted are those of
    the accepted topics before it, the rejected topics before it are in
    [filtered], and the counters show one scanned topic more than filtered
    and emitted together: the topic whose extraction raised. Topics after it
    are not scanned. *)
Theorem aborted_run_accounting P clock topics (σ : state P) e :
  fetch_topics P σ = Ok topics ->
  error (run P clock σ) = Some e ->
  let o := run P clock σ in
  let accepted := allowed (pattern_of σ) in
  exists pre t post,
    topics = pre ++ t :: post /\
    accepted t = true /\
    extraction_error P t = Some e /\
    map id (emitted o)
    = map (String.append "kafka-") (List.filter accepted pre) /\
    filtered (get_report (final o))
    = filtered (get_report σ)
      ++ List.filter (fun t => negb (accepted t)) pre /\
    topics_scanned (get_report (final o))
    = topics_scanned (get_report σ) + length pre + 1 /\
    topics_scanned (get_report (final o)) - topics_scanned (get_report σ)
    = (length (filtered (get_report (final o)))
       - length (filtered (get_report σ)))
      + length (emitted o) + 1 /\
    workunits_produced (get_report (final o))
    = workunits_produced (get_report σ) + length (emitted o).
Proof.
  intros Hft. unfold run. rewrite Hft. simpl. intros He.
  destruct (run_topics_aborted P clock topics σ e He)
    as (pre & t & post & Hts & Ha & Herr & Hids & Hfil & Hsc & Hwu).
  exists pre, t, post. repeat split; try assumption.
  rewrite Hsc, Hfil, length_app.
  rewrite <- (length_map id (emitted _)), Hids, length_map.
  pose proof (filter_split_length (allowed (pattern_of σ)) pre). lia.
Qed.

(** X3, instance: the rejected payload of the topic bad ends the run. *)
Lemma aborted_run_accounting_witness :
  let σ := opened (fresh_source scenario_malformed false) in
  let o := run scenario_malformed epoch σ in
  (fetch_topics scenario_malformed σ = Ok ["bad"; "good"] /\
   error o = Some schema_parse_exception) /\
  exists pre t post,
    ["bad"; "good"] = pre ++ t :: post /\
    allowed (pattern_of σ) t = true /\
    extraction_error scenario_malformed t = Some schema_parse_exception /\
    map id (emitted o)
    = map (String.append "kafka-")
        (List.filter (allowed (pattern_of σ)) pre) /\
    filtered (get_report (final o))
    = filtered (get_report σ)
      ++ List.filter (fun t => negb (allowed (pattern_of σ) t)) pre /\
    topics_scanned (get_report (final o))
    = topics_scanned (get_report σ) + length pre + 1 /\
    topics_scanned (get_report (final o)) - topics_scanned (get_report σ)
    = (length (filtered (get_report (final o)))
       - length (filtered (get_report σ)))
      + length (emitted o) + 1 /\
    workunits_produced (get_report (final o))
    = workunits_produced (get_report σ) + length (emitted o).
Proof.
  split; [split; reflexivity|].
  exact (aborted_run_accounting scenario_malformed epoch ["bad"; "good"]
           (opened (fresh_source scenario_malformed false))
           schema_parse_exception eq_refl eq_refl).
Defined.

(** X4: when the enumeration has no repeated topic, as the keys of a dict
    have none, no two work units of a run share an id, whether the run
    reaches the end or is cut short by an exception. *)
Theorem workunit_ids_unique P clock topics (σ : state P) :
  fetch_topics P σ = Ok topics ->
  List.NoDup topics ->
  List.NoDup (map id (emitted (run P clock σ))).
Proof.
  intros Hft Hnd. unfold run. rewrite Hft.
  destruct (error (run_topics P clock topics σ)) as [e|] eqn:He.
  - destruct (run_topics_aborted P clock topics σ e He)
      as (pre & t & post & Hts & _ & _ & Hids & _).
    rewrite Hids. apply NoDup_workunit_ids, List.NoDup_filter.
    rewrite Hts in Hnd. apply List.NoDup_app_remove_r in Hnd. exact Hnd.
  - destruct (run_topics_complete P clock topics σ He) as (Hids & _).
    rewrite Hids. apply NoDup_workunit_ids, List.NoDup_filter. exact Hnd.
Qed.

(** X4, instance: Scenario A. *)
Lemma workunit_ids_unique_witness :
  let σ := opened (fresh_source scenario_A false) in
  (fetch_topics scenario_A σ = Ok ["orders"; "_internal"; "customers"] /\
   List.NoDup ["orders"; "_internal"; "customers"]) /\
  List.NoDup (map id (emitted (run scenario_A epoch σ))).
Proof.
  assert (Hnd : List.NoDup ["orders"; "_internal"; "customers"]).
  { repeat constructor; simpl; intros H;
      repeat (destruct H as [H|H]; [discriminate|]); exact H. }
  split; [split; [reflexivity | exact Hnd]|].
  exact (workunit_ids_unique scenario_A epoch
           ["orders"; "_internal"; "customers"]
           (opened (fresh_source scenario_A false)) eq_refl Hnd).
Defined.

(** ** The warnings of a run *)

Lemma run_topics_warnings P clock ts : forall (σ : state P),
  List.NoDup ts ->
  let o := run_topics P clock ts σ in
  error o = None ->
  forall k,
    (In k ts -> allowed (pattern_of σ) k = true ->
     warnings (get_report (final o)) !! k
     = match expected_warning P k with
       | Some reason =>
           Some (default [] (warnings (get_report σ) !! k) ++ [reason])
       | None => warnings (get_report σ) !! k
       end) /\
    (~ In k ts \/ allowed (pattern_of σ) k = false ->
     warnings (get_report (final o)) !! k = warnings (get_report σ) !! k).
Proof.
  induction ts as [|t rest IH]; intros σ Hnd; simpl.
  - intros _ k. split; [tauto | reflexivity].
  - apply List.NoDup_cons_iff in Hnd. destruct Hnd as (Hnotin & Hnd).
    destruct (allowed (pattern_of σ) t) eqn:Ha.
    + pose proof (loop_body_accepted_exact P clock t σ Ha) as Hex.
      simpl in Hex. destruct (extraction_error P t) as [e'|].
      { destruct Hex as (Heq & _). rewrite Heq. discriminate. }
      destruct Hex as (extra & _ & Heq). rewrite Heq. simpl.
      intros Hnone k. specialize (IH _ Hnd Hnone k).
      unfold pattern_of, get_report in *. simpl in *.
      destruct IH as (IHin & IHout).
      assert (Hother : k <> t ->
                warnings
                  match expected_warning P t with
                  | Some reason =>
                      report_warning t reason
                        (report_topic_scanned t (report (self σ)))
                  | None => report_topic_scanned t (report (self σ))
                  end !! k
                = warnings (report (self σ)) !! k).
      { intros Hne. destruct (expected_warning P t); simpl; [|reflexivity].
        apply append_reason_lookup_ne. congruence. }
      split.
      * intros [<- | Hin] Hk.
        -- rewrite IHout by (left; exact Hnotin).
           destruct (expected_warning P t); simpl; [|reflexivity].
           apply append_reason_lookup.
        -- assert (Hne : k <> t) by (intros ->; contradiction).
           rewrite (IHin Hin Hk), (Hother Hne). reflexivity.
      * intros Hout.
        assert (Hne : k <> t).
        { intros ->. destruct Hout as [Hout | Hout]; [tauto | congruence]. }
        rewrite IHout, (Hother Hne); [reflexivity|].
        destruct Hout as [Hout | Hout]; [left; tauto | right; exact Hout].
    + rewrite (loop_body_rejected P clock t σ Ha). simpl.
      intros Hnone k. specialize (IH _ Hnd Hnone k).
      unfold pattern_of, get_report in *. simpl in *.
      destruct IH as (IHin & IHout). split.
      * intros [<- | Hin] Hk; [congruence|]. apply IHin; assumption.
      * intros Hout. apply IHout.
        destruct (decide (k = t)) as [->|Hne]; [left; exact Hnotin|].
        destruct Hout as [Hout | Hout]; [left; tauto | right; exact Hout].
Qed.

(** X5: after a run of a freshly constructed source that reaches the end of
    an enumeration without repeated topics, [report.warnings] has exactly
    one reason for every accepted topic whose schema fetch raised an
    [Exception] or whose schema type is not AVRO, and no entry for any
    other name: not for accepted topics with an AVRO schema, not for rejected
    topics, not for names outside the enumeration. *)
Theorem warnings_of_a_run P clock config (s : KafkaSource P) topics :
  __init__ P config = Ok s ->
  fetch_topics P (opened s) = Ok topics ->
  List.NoDup topics ->
  error (run P clock (opened s)) = None ->
  forall k,
    (In k topics -> allowed (topic_patterns config) k = true ->
     warnings (get_report (final (run P clock (opened s)))) !! k
     = (fun reason => [reason]) <$> expected_warning P k) /\
    (~ In k topics \/ allowed (topic_patterns config) k = false ->
     warnings (get_report (final (run P clock (opened s)))) !! k = None).
Proof.
  intros Hinit Hft Hnd. unfold run. rewrite Hft. intros Hnone k.
  assert (Hs : s = {| source_config := config; consumer := consumer s;
                      report := new_report |}).
  { unfold __init__ in Hinit.
    destruct (new_consumer P _); [|discriminate].
    destruct (new_registry P _); [|discriminate].
    injection Hinit as <-. reflexivity. }
  destruct (run_topics_warnings P clock topics (opened s) Hnd Hnone k)
    as (Hin & Hout).
  assert (Hpat : pattern_of (opened s) = topic_patterns config)
    by (rewrite Hs; reflexivity).
  assert (Hw : warnings (get_report (opened s)) !! k = None)
    by (rewrite Hs; apply lookup_empty).
  rewrite Hpat, Hw in *. split.
  - intros Hk Ha. rewrite (Hin Hk Ha).
    destruct (expected_warning P k); reflexivity.
  - exact Hout.
Qed.

(** X5, instance: Scenario A, no schema registered for any topic. *)
Lemma warnings_of_a_run_witness :
  let s := fresh_source scenario_A false in
  let final_report := get_report (final (run scenario_A epoch (opened s))) in
  (__init__ scenario_A default_config = Ok s /\
   fetch_topics scenario_A (opened s)
   = Ok ["orders"; "_internal"; "customers"] /\
   List.NoDup ["orders"; "_internal"; "customers"] /\
   error (run scenario_A epoch (opened s)) = None) /\
  (In "orders" ["orders"; "_internal"; "customers"] /\
   allowed (topic_patterns default_config) "orders" = true) /\
  warnings final_report !! "orders"
  = (fun reason => [reason]) <$> expected_warning scenario_A "orders".
Proof.
  assert (Hnd : List.NoDup ["orders"; "_internal"; "customers"]).
  { repeat constructor; simpl; intros H;
      repeat (destruct H as [H|H]; [discriminate|]); exact H. }
  assert (Hin : In "orders" ["orders"; "_internal"; "customers"])
    by (left; reflexivity).
  split; [repeat split; exact Hnd|]. split; [split; [exact Hin | reflexivity]|].
  exact (proj1 (warnings_of_a_run scenario_A epoch default_config
                  (fresh_source scenario_A false)
                  ["orders"; "_internal"; "customers"]
                  eq_refl eq_refl Hnd eq_refl "orders") Hin eq_refl).
Defined.

(** ** The records of a run *)

Lemma run_topics_units P clock ts : forall (σ : state P) wu,
  let o := run_topics P clock ts σ in
  In wu (emitted o) ->
  exists t l extra,
    In t ts /\
    wu = {| id := "kafka-" +:+ t;
            mce := {| proposedSnapshot := Some l |} |} /\
    heap (final o) !! l
    = Some {| urn := dataset_urn "kafka" t "PROD";
              aspects := AStatus false :: extra |} /\
    (extra = [] /\
     (exists e, get_latest_version P (t +:+ "-value") = Raise e) \/
     exists rs fs n,
       get_latest_version P (t +:+ "-value") = Ok rs /\
       extra = [schema_aspect t (schema rs) fs (clock n)] /\
       (String.eqb (schema_type (schema rs)) "AVRO" = false /\ fs = [] \/
        String.eqb (schema_type (schema rs)) "AVRO" = true /\
        avro_schema_to_mce_fields P (schema_str (schema rs)) = Ok fs)).
Proof.
  induction ts as [|t rest IH]; intros σ wu; simpl; [tauto|].
  destruct (allowed (pattern_of σ) t) eqn:Ha.
  - pose proof (loop_body_accepted_exact P clock t σ Ha) as Hex.
    simpl in Hex. destruct (extraction_error P t) as [e'|].
    { destruct Hex as (Heq & _). rewrite Heq. simpl. tauto. }
    destruct Hex as (extra & Hshape & Heq). rewrite Heq. simpl.
    intros [Hhd | Htl].
    + exists t, (length (heap σ)), extra.
      split; [auto|]. split; [auto|]. split.
      * match goal with
        | |- heap (final (run_topics _ _ _ ?s)) !! _ = _ =>
            destruct (run_topics_frame P clock rest s) as (_ & _ & _ & ext & Hx)
        end.
        rewrite Hx. simpl. apply lookup_app_l_Some.
        apply list_lookup_middle. reflexivity.
      * destruct Hshape as [Hnone | (rs & fs & Hf & Hextra & Hfs)];
          [left; exact Hnone | right; exists rs, fs, (ticks σ); auto].
    + destruct (IH _ _ Htl) as (t' & l & extra' & Hin & Hwu & Hlk & Hsh).
      exists t', l, extra'. auto.
  - rewrite (loop_body_rejected P clock t σ Ha). simpl. intros Hin.
    destruct (IH _ _ Hin) as (t' & l & extra' & Hin' & Hwu & Hlk & Hsh).
    exists t', l, extra'. auto.
Qed.

(** X6: the record of every work unit of a run has one of two shapes. When
    the topic's schema fetch raised, its snapshot holds the status aspect
    alone. When the fetch returned a schema, it holds the status aspect and
    then exactly one schema aspect, named after the topic, with the
    registry's payload and hash, version 0, the kafka platform urn, equal
    created and last-modified stamps in whole seconds times 1000, and as
    fields those of the conversion for an AVRO schema and none otherwise. *)
Theorem record_shapes P clock (σ : state P) wu :
  In wu (emitted (run P clock σ)) ->
  exists t snap,
    id wu = "kafka-" +:+ t /\
    snapshot_of (final (run P clock σ)) wu = Some snap /\
    ((exists e, get_latest_version P (t +:+ "-value") = Raise e) /\
     aspects snap = [AStatus false] \/
     exists rs sm,
       get_latest_version P (t +:+ "-value") = Ok rs /\
       aspects snap = [AStatus false; ASchemaMetadata sm] /\
       schemaName sm = t /\ version sm = 0%Z /\
       hash sm = str_int (schema_hash (schema rs)) /\
       platform sm = "urn:li:dataPlatform:kafka" /\
       documentSchema (platformSchema sm) = schema_str (schema rs) /\
       created sm = lastModified sm /\
       stamp_actor (created sm) = "urn:li:corpuser:etl" /\
       (exists n, stamp_time (created sm) = (clock n * 1000)%Z) /\
       (if String.eqb (schema_type (schema rs)) "AVRO"
        then avro_schema_to_mce_fields P (schema_str (schema rs))
             = Ok (fields sm)
        else fields sm = [])).
Proof.
  unfold run. destruct (fetch_topics P σ) as [ts|e]; simpl; [|tauto].
  intros Hin.
  destruct (run_topics_units P clock ts σ wu Hin)
    as (t & l & extra & _ & -> & Hlk & Hshape).
  exists t. eexists. split; [reflexivity|].
  split; [unfold snapshot_of; simpl; exact Hlk|]. simpl.
  destruct Hshape as [(-> & Hfail) | (rs & fs & n & Hf & -> & Hfs)].
  - left. auto.
  - right. exists rs. eexists. split; [exact Hf|]. split; [reflexivity|].
    simpl. repeat split; eauto.
    destruct Hfs as [(-> & ->) | (-> & Hp)]; auto.
Qed.

(** X6, instance: the unit of the PROTOBUF topic events. *)
Lemma record_shapes_witness :
  let σ := opened (fresh_source scenario_protobuf false) in
  let wu := {| id := "kafka-events";
               mce := {| proposedSnapshot := Some 0 |} |} in
  In wu (emitted (run scenario_protobuf epoch σ)) /\
  exists t snap,
    id wu = "kafka-" +:+ t /\
    snapshot_of (final (run scenario_protobuf epoch σ)) wu = Some snap /\
    ((exists e, get_latest_version scenario_protobuf (t +:+ "-value")
                = Raise e) /\
     aspects snap = [AStatus false] \/
     exists rs sm,
       get_latest_version scenario_protobuf (t +:+ "-value") = Ok rs /\
       aspects snap = [AStatus false; ASchemaMetadata sm] /\
       schemaName sm = t /\ version sm = 0%Z /\
       hash sm = str_int (schema_hash (schema rs)) /\
       platform sm = "urn:li:dataPlatform:kafka" /\
       documentSchema (platformSchema sm) = schema_str (schema rs) /\
       created sm = lastModified sm /\
       stamp_actor (created sm) = "urn:li:corpuser:etl" /\
       (exists n, stamp_time (created sm) = (epoch n * 1000)%Z) /\
       (if String.eqb (schema_type (schema rs)) "AVRO"
        then avro_schema_to_mce_fields scenario_protobuf
               (schema_str (schema rs)) = Ok (fields sm)
        else fields sm = [])).
Proof.
  assert (Hin : In {| id := "kafka-events";
                      mce := {| proposedSnapshot := Some 0 |} |}
                  (emitted (run scenario_protobuf epoch
                              (opened (fresh_source scenario_protobuf false)))))
    by (left; reflexivity).
  split; [exact Hin|].
  exact (record_shapes scenario_protobuf epoch _ _ Hin).
Defined.

Lemma run_topics_locations P clock ts : forall (σ : state P),
  List.NoDup (map location_of (emitted (run_topics P clock ts σ))).
Proof.
  induction ts as [|t rest IH]; intros σ; simpl; [constructor|].
  destruct (allowed (pattern_of σ) t) eqn:Ha.
  - destruct (loop_body_accepted P clock t σ Ha)
      as (extra & rep' & _ & [Heq | (e & Heq & _)]);
      rewrite Heq; simpl; [|constructor].
    constructor; [|apply IH].
    rewrite in_map_iff. intros (wu & Hloc & Hin).
    destruct (run_topics_emitted P clock rest _ wu Hin)
      as (t' & l & extra' & _ & _ & -> & Hl & _).
    unfold location_of in Hloc. simpl in Hloc, Hl.
    rewrite length_app in Hl. simpl in Hl.
    injection Hloc as Hloc. lia.
  - rewrite (loop_body_rejected P clock t σ Ha). simpl. apply IH.
Qed.

(** X7: no two work units of a run share a snapshot object: the records of
    a run point to pairwise different snapshots, so appending to one never
    shows in another. *)
Theorem snapshots_are_not_shared P clock (σ : state P) :
  List.NoDup (map location_of (emitted (run P clock σ))) /\
  forall wu, In wu (emitted (run P clock σ)) -> is_Some (location_of wu).
Proof.
  unfold run. destruct (fetch_topics P σ) as [ts|e]; simpl.
  - split; [apply run_topics_locations|].
    intros wu Hin.
    destruct (run_topics_emitted P clock ts σ wu Hin)
      as (t & l & extra & _ & _ & -> & _). eexists. reflexivity.
  - split; [constructor | tauto].
Qed.

(** X7, instance: the unit of orders in Scenario A has a snapshot. *)
Lemma snapshots_are_not_shared_witness :
  let σ := opened (fresh_source scenario_A false) in
  let wu := {| id := "kafka-orders";
               mce := {| proposedSnapshot := Some 0 |} |} in
  In wu (emitted (run scenario_A epoch σ)) /\ is_Some (location_of wu).
Proof.
  assert (Hin : In {| id := "kafka-orders";
                      mce := {| proposedSnapshot := Some 0 |} |}
                  (emitted (run scenario_A epoch
                              (opened (fresh_source scenario_A false)))))
    by (left; reflexivity).
  split; [exact Hin|].
  exact (proj2 (snapshots_are_not_shared scenario_A epoch
                  (opened (fresh_source scenario_A false))) _ Hin).
Defined.

(** ** Single pulls *)

Lemma for_loop_heap P clock ts : forall (σ : state P),
  exists ext, heap (snd (for_loop P clock ts σ)) = heap σ ++ ext.
Proof.
  induction ts as [|t rest IH]; intros σ; simpl.
  - exists []. symmetry. apply app_nil_r.
  - destruct (loop_body_frame P clock t σ) as (_ & _ & _ & _ & ext & Hx).
    destruct (loop_body P clock t σ) as [[wu| |e] σ'];
      simpl in *; eauto.
    destruct (IH σ') as (ext' & Hx'). exists (ext ++ ext').
    rewrite Hx', Hx. symmetry. apply app_assoc.
Qed.

Lemma next_heap P clock g (σ : state P) :
  exists ext, heap (snd (next P clock g σ)) = heap σ ++ ext.
Proof.
  destruct g as [|rest|]; simpl.
  - destruct (fetch_topics P σ) as [ts|e]; [apply for_loop_heap|].
    exists []. symmetry. apply app_nil_r.
  - apply for_loop_heap.
  - exists []. symmetry. apply app_nil_r.
Qed.

(** X8: a record that has been yielded is never changed afterwards: the
    snapshot it points to when the pull returns is still the same after any
    further pull on the source and at the end of any further loop, since
    later extractions only add snapshot objects of their own. *)
Theorem yielded_records_stay P clock g g' (σ σ' : state P) wu :
  next P clock g σ = (Yielded wu, g', σ') ->
  exists snap,
    snapshot_of σ' wu = Some snap /\
    (forall g2, snapshot_of (snd (next P clock g2 σ')) wu = Some snap) /\
    (forall ts, snapshot_of (final (run_topics P clock ts σ')) wu = Some snap).
Proof.
  intros Hnext.
  assert (Hfl : exists ts, for_loop P clock ts σ = (Yielded wu, g', σ')).
  { destruct g as [|rest|]; simpl in Hnext.
    - destruct (fetch_topics P σ) as [ts|e]; [eauto | discriminate].
    - eauto.
    - discriminate. }
  destruct Hfl as (ts & Hfl).
  destruct (for_loop_yield P clock ts σ σ' wu g' Hfl)
    as (t & l & extra & _ & -> & Hlk).
  eexists. unfold snapshot_of. simpl. split; [exact Hlk|]. split.
  - intros g2. destruct (next_heap P clock g2 σ') as (ext & Hx).
    rewrite Hx. apply lookup_app_l_Some. exact Hlk.
  - intros ts'.
    destruct (run_topics_frame P clock ts' σ') as (_ & _ & _ & ext & Hx).
    rewrite Hx. apply lookup_app_l_Some. exact Hlk.
Qed.

(** X8, instance: the unit of orders, pulled first in Scenario A, after the
    pull that yields the unit of customers. *)
Lemma yielded_records_stay_witness :
  let σ := opened (fresh_source scenario_A false) in
  let pull := next scenario_A epoch Created σ in
  let wu := {| id := "kafka-orders";
               mce := {| proposedSnapshot := Some 0 |} |} in
  pull = (Yielded wu, Suspended ["_internal"; "customers"], snd pull) /\
  exists snap,
    snapshot_of (snd pull) wu = Some snap /\
    (forall g2,
       snapshot_of (snd (next scenario_A epoch g2 (snd pull))) wu
       = Some snap) /\
    (forall ts,
       snapshot_of (final (run_topics scenario_A epoch ts (snd pull))) wu
       = Some snap).
Proof.
  split; [reflexivity|].
  exact (yielded_records_stay scenario_A epoch Created
           (Suspended ["_internal"; "customers"])
           (opened (fresh_source scenario_A false)) _ _ eq_refl).
Defined.

(** X9: a pull scans topics only up to the next accepted one. If it yields,
    the topics it went through are rejected ones followed by one accepted
    topic, whose unit it yields; the report then counts exactly these
    topics, has the rejected ones appended to [filtered] in order, and one
    more produced unit; the generator is suspended before the remaining
    topics, which the report does not show yet. If it stops, all the topics
    it had left were rejected and are in [filtered]. *)
Theorem pull_stops_at_next_accepted_topic P clock ts : forall (σ : state P),
  match next P clock (Suspended ts) σ with
  | (Yielded wu, g', σ') =>
      exists pre t rest,
        ts = pre ++ t :: rest /\ g' = Suspended rest /\
        Forall (fun x => allowed (pattern_of σ) x = false) pre /\
        allowed (pattern_of σ) t = true /\
        id wu = "kafka-" +:+ t /\
        topics_scanned (get_report σ')
        = topics_scanned (get_report σ) + length pre + 1 /\
        filtered (get_report σ') = filtered (get_report σ) ++ pre /\
        workunits_produced (get_report σ')
        = workunits_produced (get_report σ) + 1
  | (StopIteration, g', σ') =>
      g' = Exhausted /\
      Forall (fun x => allowed (pattern_of σ) x = false) ts /\
      topics_scanned (get_report σ')
      = topics_scanned (get_report σ) + length ts /\
      filtered (get_report σ') = filtered (get_report σ) ++ ts /\
      workunits_produced (get_report σ') = workunits_produced (get_report σ) /\
      warnings (get_report σ') = warnings (get_report σ) /\
      heap σ' = heap σ
  | (Propagated e, g', σ') =>
      g' = Exhausted /\
      exists pre t rest,
        ts = pre ++ t :: rest /\
        Forall (fun x => allowed (pattern_of σ) x = false) pre /\
        allowed (pattern_of σ) t = true /\
        extraction_error P t = Some e /\
        filtered (get_report σ') = filtered (get_report σ) ++ pre /\
        workunits_produced (get_report σ') = workunits_produced (get_report σ)
  end.
Proof.
  simpl. induction ts as [|t rest IH]; intros σ; simpl.
  - rewrite app_nil_r. repeat split; auto.
  - destruct (allowed (pattern_of σ) t) eqn:Ha.
    + pose proof (loop_body_accepted_exact P clock t σ Ha) as Hex.
      simpl in Hex. destruct (extraction_error P t) as [e|] eqn:Herr.
      * destruct Hex as (Heq & _). rewrite Heq.
        split; [reflexivity|]. exists [], t, rest.
        unfold get_report. simpl.
        destruct (expected_warning P t); simpl;
          rewrite app_nil_r; repeat split; auto.
      * destruct Hex as (extra & _ & Heq). rewrite Heq.
        exists [], t, rest. unfold get_report. simpl.
        destruct (expected_warning P t); simpl;
          rewrite app_nil_r; repeat split; auto; lia.
    + rewrite (loop_body_rejected P clock t σ Ha).
      specialize (IH (with_report
                        (fun r => report_dropped t (report_topic_scanned t r))
                        σ)).
      destruct (for_loop P clock rest _) as [[[wu| |e] g'] σ'];
        unfold pattern_of, get_report in *; simpl in *.
      * destruct IH as (pre & t' & rest' & -> & -> & Hall & Ha' & Hid & Hsc
                        & Hfil & Hwu).
        exists (t :: pre), t', rest'.
        rewrite Hsc, Hfil, Hwu, <- app_assoc. simpl.
        repeat split; auto. lia.
      * destruct IH as (-> & Hall & Hsc & Hfil & Hwu & Hw & Hh).
        rewrite Hsc, Hfil, Hwu, Hw, Hh, <- app_assoc. simpl.
        repeat split; auto. lia.
      * destruct IH as (-> & pre & t' & rest' & -> & Hall & Ha' & Herr & Hfil
                        & Hwu).
        split; [reflexivity|]. exists (t :: pre), t', rest'.
        rewrite Hfil, Hwu, <- app_assoc. simpl. repeat split; auto.
Qed.

(** X9, instance: the first pull of Scenario A stops at orders. *)
Lemma pull_stops_at_next_accepted_topic_witness :
  let σ := opened (fresh_source scenario_A false) in
  let ts := ["_internal"; "customers"] in
  match next scenario_A epoch (Suspended ts) σ with
  | (Yielded wu, g', σ') =>
      exists pre t rest,
        ts = pre ++ t :: rest /\ g' = Suspended rest /\
        Forall (fun x => allowed (pattern_of σ) x = false) pre /\
        allowed (pattern_of σ) t = true /\
        id wu = "kafka-" +:+ t /\
        topics_scanned (get_report σ')
        = topics_scanned (get_report σ) + length pre + 1 /\
        filtered (get_report σ') = filtered (get_report σ) ++ pre /\
        workunits_produced (get_report σ')
        = workunits_produced (get_report σ) + 1
  | _ => False
  end.
Proof.
  exact (pull_stops_at_next_accepted_topic scenario_A epoch
           ["_internal"; "customers"]
           (opened (fresh_source scenario_A false))).
Defined.

(** ** Construction *)

(** X10: [__init__] passes the consumer every entry of [consumer_config],
    which overrides the two entries the source sets itself: [group.id] is
    ["test"] and [bootstrap.servers] the configured bootstrap address only
    when [consumer_config] has no such key. It returns a source exactly when
    the consumer and then the registry client can be made: the source holds
    the configuration, that consumer and an empty report. Otherwise it
    raises the consumer's exception, or the registry client's when the
    consumer was made. *)
Theorem init_builds_source P config :
  (forall k v, consumer_config (connection config) !! k = Some v ->
               consumer_conf config !! k = Some v) /\
  (consumer_config (connection config) !! "group.id" = None ->
   consumer_conf config !! "group.id" = Some "test") /\
  (consumer_config (connection config) !! "bootstrap.servers" = None ->
   consumer_conf config !! "bootstrap.servers"
   = Some (bootstrap (connection config))) /\
  (forall k, k <> "group.id" -> k <> "bootstrap.servers" ->
             consumer_conf config !! k
             = consumer_config (connection config) !! k) /\
  match __init__ P config with
  | Ok s =>
      exists c,
        new_consumer P (consumer_conf config) = Ok c /\
        new_registry P (schema_registry_url (connection config)) = Ok tt /\
        s = {| source_config := config; consumer := Some c;
               report := new_report |}
  | Raise e =>
      new_consumer P (consumer_conf config) = Raise e \/
      exists c,
        new_consumer P (consumer_conf config) = Ok c /\
        new_registry P (schema_registry_url (connection config)) = Raise e
  end.
Proof.
  unfold consumer_conf. repeat split.
  - intros k v Hk. apply lookup_union_Some_l. exact Hk.
  - intros Hnone. rewrite lookup_union_r by exact Hnone.
    rewrite lookup_insert_ne by discriminate.
    apply lookup_singleton_eq.
  - intros Hnone. rewrite lookup_union_r by exact Hnone.
    apply lookup_insert_eq.
  - intros k Hg Hb.
    destruct (consumer_config (connection config) !! k) as [v|] eqn:Hk.
    + apply lookup_union_Some_l. exact Hk.
    + rewrite lookup_union_r by exact Hk.
      rewrite lookup_insert_ne by congruence.
      apply lookup_singleton_ne. congruence.
  - unfold __init__.
    destruct (new_consumer P _) as [c|e] eqn:Hc; [|left; reflexivity].
    destruct (new_registry P _) as [[]|e] eqn:Hr.
    + exists c. auto.
    + right. exists c. auto.
Qed.

(** X10, instance: a [consumer_config] that sets the group id. *)
Lemma init_builds_source_witness :
  (consumer_config (connection override_config) !! "group.id" = Some "ingest"
   /\ consumer_config (connection override_config) !! "bootstrap.servers"
      = None) /\
  consumer_conf override_config !! "group.id" = Some "ingest" /\
  consumer_conf override_config !! "bootstrap.servers" = Some "broker:9092".
Proof.
  split; [split; reflexivity|]. split.
  - exact (proj1 (init_builds_source scenario_A override_config)
             "group.id" "ingest" eq_refl).
  - exact (proj1 (proj2 (proj2 (init_builds_source scenario_A override_config)))
             eq_refl).
Defined.

(** ** Running again on the same source *)

Lemma run_topics_same_pattern P clock1 clock2 ts : forall (σ1 σ2 : state P),
  pattern_of σ1 = pattern_of σ2 ->
  error (run_topics P clock1 ts σ1) = error (run_topics P clock2 ts σ2) /\
  map id (emitted (run_topics P clock1 ts σ1))
  = map id (emitted (run_topics P clock2 ts σ2)).
Proof.
  induction ts as [|t rest IH]; intros σ1 σ2 Hpat; simpl; [auto|].
  destruct (allowed (pattern_of σ1) t) eqn:Ha1.
  - assert (Ha2 : allowed (pattern_of σ2) t = true) by congruence.
    pose proof (loop_body_accepted_exact P clock1 t σ1 Ha1) as H1.
    pose proof (loop_body_accepted_exact P clock2 t σ2 Ha2) as H2.
    simpl in H1, H2. destruct (extraction_error P t) as [e|].
    + destruct H1 as (-> & _). destruct H2 as (-> & _). auto.
    + destruct H1 as (x1 & _ & ->). destruct H2 as (x2 & _ & ->). simpl.
      match goal with
      | |- context [run_topics P clock1 rest ?a] =>
          match goal with
          | |- context [run_topics P clock2 rest ?b] =>
              destruct (IH a b Hpat) as (He & Hids)
          end
      end.
      rewrite He, Hids. auto.
  - assert (Ha2 : allowed (pattern_of σ2) t = false) by congruence.
    rewrite (loop_body_rejected P clock1 t σ1 Ha1),
            (loop_body_rejected P clock2 t σ2 Ha2).
    apply IH. exact Hpat.
Qed.

(** X11: nothing resets the report between two calls of [get_workunits] on
    the same source. When a run has reached the end of the enumeration and
    the consumer lists the same topics again, a second run on that source
    reaches the end too and emits the same ids, and the report then counts
    every topic twice and lists every rejected topic twice. *)
Theorem second_run_accumulates P clock topics (σ : state P) :
  fetch_topics P σ = Ok topics ->
  error (run P clock σ) = None ->
  let o1 := run P clock σ in
  let o2 := run P clock (final o1) in
  let dropped :=
    List.filter (fun t => negb (allowed (pattern_of σ) t)) topics in
  error o2 = None /\
  map id (emitted o2) = map id (emitted o1) /\
  topics_scanned (get_report (final o2))
  = topics_scanned (get_report σ) + 2 * length topics /\
  filtered (get_report (final o2))
  = filtered (get_report σ) ++ dropped ++ dropped /\
  workunits_produced (get_report (final o2))
  = workunits_produced (get_report σ) + 2 * length (emitted o1).
Proof.
  intros Hft Hnone. simpl.
  assert (Hrun1 : run P clock σ = run_topics P clock topics σ)
    by (unfold run; rewrite Hft; reflexivity).
  rewrite Hrun1 in *.
  destruct (run_topics_frame P clock topics σ) as (Hcfg & Hcons & _).
  assert (Hrun2 : run P clock (final (run_topics P clock topics σ))
                  = run_topics P clock topics
                      (final (run_topics P clock topics σ))).
  { unfold run, fetch_topics in *. rewrite Hcons, Hft. reflexivity. }
  rewrite Hrun2.
  assert (Hpat : pattern_of (final (run_topics P clock topics σ))
                 = pattern_of σ)
    by (unfold pattern_of; rewrite Hcfg; reflexivity).
  destruct (run_topics_same_pattern P clock clock topics _ σ Hpat)
    as (He & Hids).
  rewrite Hnone in He.
  destruct (run_topics_complete P clock topics σ Hnone)
    as (Hids1 & Hfil1 & Hsc1 & Hwu1).
  destruct (run_topics_complete P clock topics _ He)
    as (_ & Hfil2 & Hsc2 & Hwu2).
  rewrite Hpat in Hfil2.
  split; [exact He|]. split; [exact Hids|].
  rewrite Hsc2, Hsc1, Hfil2, Hfil1, Hwu2, Hwu1, <- app_assoc.
  repeat split; try lia.
  rewrite <- (length_map id (emitted (run_topics P clock topics
                                        (final (run_topics P clock topics σ))))),
    Hids, length_map. lia.
Qed.

(** X11, instance: Scenario A run twice. *)
Lemma second_run_accumulates_witness :
  let σ := opened (fresh_source scenario_A false) in
  let o1 := run scenario_A epoch σ in
  let o2 := run scenario_A epoch (final o1) in
  (fetch_topics scenario_A σ = Ok ["orders"; "_internal"; "customers"] /\
   error o1 = None) /\
  error o2 = None /\
  map id (emitted o2) = map id (emitted o1) /\
  topics_scanned (get_report (final o2)) = 0 + 2 * 3.
Proof.
  split; [split; reflexivity|].
  destruct (second_run_accumulates scenario_A epoch
              ["orders"; "_internal"; "customers"]
              (opened (fresh_source scenario_A false)) eq_refl eq_refl)
    as (He & Hids & Hsc & _).
  split; [exact He|]. split; [exact Hids | exact Hsc].
Defined.

(** ** Paths of the extraction the handler does not cover *)

(** X12: the handler around the schema fetch catches [Exception] only. When
    the fetch of an accepted topic raises something else, the pull ends in
    that very object and the generator is finished: no warning and no
    failure is recorded, no unit is produced or counted, but the topic has
    been counted as scanned and its snapshot, with the status aspect alone,
    has been created and is left behind. *)
Theorem uncaught_fetch_error P clock t rest (σ : state P) e :
  allowed (pattern_of σ) t = true ->
  get_latest_version P (t +:+ "-value") = Raise e ->
  exc_is_Exception e = false ->
  exists σ',
    next P clock (Suspended (t :: rest)) σ = (Propagated e, Exhausted, σ') /\
    warnings (get_report σ') = warnings (get_report σ) /\
    failures (get_report σ') = failures (get_report σ) /\
    workunits_produced (get_report σ') = workunits_produced (get_report σ) /\
    topics_scanned (get_report σ') = topics_scanned (get_report σ) + 1 /\
    filtered (get_report σ') = filtered (get_report σ) /\
    heap σ' = heap σ ++ [{| urn := dataset_urn "kafka" t "PROD";
                            aspects := [AStatus false] |}].
Proof.
  intros Hyes Hf He. simpl. unfold loop_body.
  unfold pattern_of in Hyes. simpl. rewrite Hyes.
  rewrite (extract_fetch_uncaught P clock t _ e Hf He).
  eexists. split; [reflexivity|]. repeat split.
Qed.

(** X12, instance: a fetch interrupted from the keyboard. *)
Lemma uncaught_fetch_error_witness :
  let σ := opened (fresh_source scenario_interrupted false) in
  (allowed (pattern_of σ) "orders" = true /\
   get_latest_version scenario_interrupted "orders-value"
   = Raise keyboard_interrupt /\
   exc_is_Exception keyboard_interrupt = false) /\
  exists σ',
    next scenario_interrupted epoch (Suspended ["orders"]) σ
    = (Propagated keyboard_interrupt, Exhausted, σ') /\
    warnings (get_report σ') = warnings (get_report σ) /\
    failures (get_report σ') = failures (get_report σ) /\
    workunits_produced (get_report σ') = workunits_produced (get_report σ) /\
    topics_scanned (get_report σ') = topics_scanned (get_report σ) + 1 /\
    filtered (get_report σ') = filtered (get_report σ) /\
    heap σ' = heap σ ++ [{| urn := dataset_urn "kafka" "orders" "PROD";
                            aspects := [AStatus false] |}].
Proof.
  split; [repeat split|].
  exact (uncaught_fetch_error scenario_interrupted epoch "orders" []
           (opened (fresh_source scenario_interrupted false))
           keyboard_interrupt eq_refl eq_refl eq_refl).
Defined.

Lemma run_topics_all_rejected P clock ts : forall (σ : state P),
  Forall (fun t => allowed (pattern_of σ) t = false) ts ->
  let o := run_topics P clock ts σ in
  emitted o = [] /\ error o = None /\
  topics_scanned (get_report (final o))
  = topics_scanned (get_report σ) + length ts /\
  filtered (get_report (final o)) = filtered (get_report σ) ++ ts /\
  workunits_produced (get_report (final o))
  = workunits_produced (get_report σ) /\
  warnings (get_report (final o)) = warnings (get_report σ) /\
  heap (final o) = heap σ /\ ticks (final o) = ticks σ.
Proof.
  induction ts as [|t rest IH]; intros σ Hall; simpl.
  - rewrite app_nil_r. repeat split; auto.
  - apply Forall_cons_iff in Hall. destruct Hall as (Ha & Hall).
    rewrite (loop_body_rejected P clock t σ Ha).
    destruct (IH (with_report
                    (fun r => report_dropped t (report_topic_scanned t r)) σ)
                Hall)
      as (Hem & Her & Hsc & Hfil & Hwu & Hw & Hh & Ht).
    unfold get_report in *. simpl in *.
    rewrite Hem, Her, Hsc, Hfil, Hwu, Hw, Hh, Ht, <- app_assoc. simpl.
    repeat split; auto. lia.
Qed.

(** X13: when the pattern rejects every topic of the enumeration, the run
    cannot fail, whatever the registry and the field conversion would
    answer: they are never asked. It emits nothing, counts every topic,
    appends them all to [filtered] in order, and records no warning and
    creates no snapshot. *)
Theorem rejected_topics_only P clock topics (σ : state P) :
  fetch_topics P σ = Ok topics ->
  Forall (fun t => allowed (pattern_of σ) t = false) topics ->
  let o := run P clock σ in
  emitted o = [] /\ error o = None /\
  topics_scanned (get_report (final o))
  = topics_scanned (get_report σ) + length topics /\
  filtered (get_report (final o)) = filtered (get_report σ) ++ topics /\
  workunits_produced (get_report (final o))
  = workunits_produced (get_report σ) /\
  warnings (get_report (final o)) = warnings (get_report σ) /\
  heap (final o) = heap σ /\ ticks (final o) = ticks σ.
Proof.
  intros Hft Hall. unfold run. rewrite Hft.
  apply run_topics_all_rejected. exact Hall.
Qed.

(** X13, instance: a broker with reserved topics only, whose registry
    would interrupt every fetch. *)
Lemma rejected_topics_only_witness :
  let σ := opened (fresh_source scenario_reserved false) in
  let o := run scenario_reserved epoch σ in
  (fetch_topics scenario_reserved σ = Ok ["_schemas"; "__consumer_offsets"] /\
   Forall (fun t => allowed (pattern_of σ) t = false)
     ["_schemas"; "__consumer_offsets"]) /\
  emitted o = [] /\ error o = None /\
  filtered (get_report (final o))
  = filtered (get_report σ) ++ ["_schemas"; "__consumer_offsets"].
Proof.
  assert (Hall : Forall (fun t => allowed default_topic_patterns t = false)
                   ["_schemas"; "__consumer_offsets"])
    by (repeat constructor).
  split; [split; [reflexivity | exact Hall]|].
  destruct (rejected_topics_only scenario_reserved epoch
              ["_schemas"; "__consumer_offsets"]
              (opened (fresh_source scenario_reserved false)) eq_refl Hall)
    as (Hem & Her & _ & Hfil & _).
  split; [exact Hem|]. split; [exact Her | exact Hfil].
Defined.

(** X14: for an accepted topic whose fetched schema has type exactly
    ["AVRO"] and whose payload the field conversion turns into fields, the
    turn emits the unit without touching the warnings, and the schema
    aspect after the status aspect carries exactly these fields, with both
    stamps at 1000 times the clock reading taken at the start of the
    extraction. *)
Theorem avro_schema_is_attached P clock t (σ : state P) rs fs :
  allowed (pattern_of σ) t = true ->
  get_latest_version P (t +:+ "-value") = Ok rs ->
  schema_type (schema rs) = "AVRO" ->
  avro_schema_to_mce_fields P (schema_str (schema rs)) = Ok fs ->
  exists wu σ' sm,
    loop_body P clock t σ = (Emit wu, σ') /\
    id wu = "kafka-" +:+ t /\
    warnings (get_report σ') = warnings (get_report σ) /\
    snapshot_of σ' wu
    = Some {| urn := dataset_urn "kafka" t "PROD";
              aspects := [AStatus false; ASchemaMetadata sm] |} /\
    fields sm = fs /\
    documentSchema (platformSchema sm) = schema_str (schema rs) /\
    stamp_time (created sm) = (clock (ticks σ) * 1000)%Z /\
    created sm = lastModified sm /\
    ticks σ' = S (ticks σ).
Proof.
  intros Hyes Hf Hty Hp.
  apply String.eqb_eq in Hty.
  unfold loop_body. unfold pattern_of in Hyes. simpl. rewrite Hyes.
  rewrite (extract_avro P clock t _ rs fs Hf Hty Hp).
  eexists _, _, _. split; [reflexivity|]. simpl.
  split; [reflexivity|]. split; [reflexivity|]. split.
  - unfold snapshot_of. simpl. apply list_lookup_middle. reflexivity.
  - repeat split.
Qed.

(** X14, instance: the AVRO schema of the topic orders. *)
Lemma avro_schema_is_attached_witness :
  let σ := opened (fresh_source scenario_avro false) in
  (allowed (pattern_of σ) "orders" = true /\
   get_latest_version scenario_avro "orders-value"
   = Ok {| schema := avro_schema |} /\
   schema_type avro_schema = "AVRO" /\
   avro_schema_to_mce_fields scenario_avro (schema_str avro_schema)
   = Ok [{| fieldPath := "id"; fieldType := "long";
            nativeDataType := "long" |}]) /\
  exists wu σ' sm,
    loop_body scenario_avro epoch "orders" σ = (Emit wu, σ') /\
    id wu = "kafka-orders" /\
    warnings (get_report σ') = warnings (get_report σ) /\
    snapshot_of σ' wu
    = Some {| urn := dataset_urn "kafka" "orders" "PROD";
              aspects := [AStatus false; ASchemaMetadata sm] |} /\
    fields sm = [{| fieldPath := "id"; fieldType := "long";
                    nativeDataType := "long" |}] /\
    documentSchema (platformSchema sm) = schema_str avro_schema /\
    stamp_time (created sm) = (epoch 0 * 1000)%Z /\
    created sm = lastModified sm /\
    ticks σ' = 1.
Proof.
  split; [repeat split|].
  exact (avro_schema_is_attached scenario_avro epoch "orders"
           (opened (fresh_source scenario_avro false))
           {| schema := avro_schema |} _ eq_refl eq_refl eq_refl eq_refl).
Defined.
